(** * blast_project.py: hit lists, heat-map row selection and FASTA extraction

    A shallow embedding of [blast_project.py] and the properties of its
    list builder, its heat-map row selection, its streaming FASTA reader and
    its 60-column writer.

    Conventions of the embedding:
    - a Python [str] is a Rocq [string]; a character is a code point below
      256;
    - a [set] of strings is a [gset string]; the files of the output
      directory are a [gmap] from path to content;
    - a float64 cell is a [spec_float] of the Standard Library, with
      [S754_nan] as the missing value pandas produces on a failed coercion;
    - code that can raise returns an [outcome]; code that prints or writes
      files threads a [World] through a small state-and-error monad. *)

From Stdlib Require Import Ascii Floats.SpecFloat.
From stdpp Require Import gmap strings list sorting pretty.

Local Open Scope stdpp_scope.

(* ================================================================== *)
(** * Python strings *)
(* ================================================================== *)

Module Py.

Definition LF : ascii := "010"%char.

(** ["\n"] *)
Definition nl : string := String LF "".

(** [len(s)] *)
Definition len (s : string) : nat := String.length s.

(** [s[n:]] *)
Fixpoint drop (n : nat) (s : string) : string :=
  match n, s with
  | 0, _ => s
  | S _, "" => ""
  | S n', String _ s' => drop n' s'
  end.

(** [s[:n]] *)
Fixpoint take (n : nat) (s : string) : string :=
  match n, s with
  | 0, _ => ""
  | S _, "" => ""
  | S n', String c s' => String c (take n' s')
  end.

(** [s[lo:hi]] for [0 <= lo <= hi]: out-of-range bounds are clipped. *)
Definition slice (lo hi : nat) (s : string) : string :=
  take (hi - lo) (drop lo s).

(** [s.startswith(p)] *)
Definition startswith (p s : string) : bool := String.prefix p s.

(** [sep.join(ls)] *)
Definition join (sep : string) (ls : list string) : string :=
  String.concat sep ls.

(** [s.rstrip("\n")]: every trailing line feed is removed. *)
Fixpoint rstrip_nl (s : string) : string :=
  match s with
  | "" => ""
  | String c s' =>
      match rstrip_nl s' with
      | "" => if decide (c = LF) then "" else String c ""
      | r => String c r
      end
  end.

(** [c.isspace()] on the code points below 256. *)
Definition isspace (c : ascii) : bool :=
  match c with
  | "009" | "010" | "011" | "012" | "013"
  | "028" | "029" | "030" | "031" | " " | "133" | "160" => true
  | _ => false
  end%char.

(** The word collected so far, if any, as a list of zero or one words. *)
Definition flush (cur : string) : list string :=
  match cur with "" => [] | _ => [cur] end.

(** [s.split()]: the maximal runs of non-whitespace characters. [cur] is
    the run being read. *)
Fixpoint split_go (cur s : string) : list string :=
  match s with
  | "" => flush cur
  | String c s' =>
      if isspace c then flush cur ++ split_go "" s'
      else split_go (cur +:+ String c "") s'
  end.

Definition split (s : string) : list string := split_go "" s.

(** [range(0, stop, step)] for a positive [step]. *)
Definition range0 (stop step : nat) : list nat :=
  (λ k, k * step) <$> seq 0 ((stop + step - 1) `div` step).

(** The lines a text file yields when iterated: each ends with its line
    feed, except possibly the last. *)
Fixpoint readlines (content : string) : list string :=
  match content with
  | "" => []
  | String c rest =>
      if decide (c = LF) then nl :: readlines rest
      else match readlines rest with
           | [] => [String c ""]
           | l :: ls => String c l :: ls
           end
  end.

End Py.

(* ================================================================== *)
(** * Outcomes, the world, and the monad of the script *)
(* ================================================================== *)

(** The exceptions the modelled code can raise. [SystemExit] carries the
    argument of [sys.exit]. *)
Inductive exn :=
  | FileNotFoundError
  | IndexError
  | ReaderError (msg : string)
  | SystemExit (code : option Z).

Inductive outcome (A : Type) :=
  | Ok (a : A)
  | Raise (e : exn).
Arguments Ok {A} a.
Arguments Raise {A} e.

(** The process status the interpreter exits with. *)
Definition exit_status {A} (o : outcome A) : Z :=
  match o with
  | Ok _ => 0
  | Raise (SystemExit None) => 0
  | Raise (SystemExit (Some n)) => n
  | Raise _ => 1
  end.

Record World := mkWorld {
  files : gmap string string;
  stdout : list string;
}.

Definition M (A : Type) : Type := World → outcome A * World.

Global Instance M_ret : MRet M := λ A a w, (Ok a, w).
Global Instance M_bind : MBind M := λ A B f m w,
  match m w with
  | (Ok a, w') => f a w'
  | (Raise e, w') => (Raise e, w')
  end.

Definition raise {A} (e : exn) : M A := λ w, (Raise e, w).

(** [print(line)]; a line is held as the bytes written for it. *)
Definition print (line : string) : M unit :=
  λ w, (Ok (), mkWorld (files w) (stdout w ++ [line])).

(** [path.write_text(text)] *)
Definition write_text (path text : string) : M unit :=
  λ w, (Ok (), mkWorld (<[path := text]> (files w)) (stdout w)).

(** [outdir / name] *)
Definition path_join (dir name : string) : string := dir +:+ "/" +:+ name.

(* ================================================================== *)
(** * FASTA sequence extraction *)
(* ================================================================== *)

(** The value yielded at a header line or at the end of the file. *)
Definition emit (header : option string) (seq_lines : list string)
  : list (string * string) :=
  match header with
  | Some h => [(h, Py.join "" seq_lines)]
  | None => []
  end.

(** The body of [fasta_iterator]: the loop over the lines of the file with
    its two variables, and the records it yields. *)
Fixpoint fasta_loop (fh : list string) (header : option string)
    (seq_lines : list string) : list (string * string) :=
  match fh with
  | [] => emit header seq_lines
  | line :: fh' =>
      let line := Py.rstrip_nl line in
      if Py.startswith ">" line
      then emit header seq_lines ++ fasta_loop fh' (Some (Py.drop 1 line)) []
      else fasta_loop fh' header (seq_lines ++ [line])
  end.

Definition fasta_iterator (fh : list string) : list (string * string) :=
  fasta_loop fh None [].

(** The sequence lines written for one record:
    [for i in range(0, len(seq), 60): out.write(seq[i:i+60] + "\n")]. *)
Definition wrap (width : nat) (seq : string) : list string :=
  (λ i, Py.slice i (i + width) seq) <$> Py.range0 (Py.len seq) width.

Definition write_lines (out : string) (lines : list string) : string :=
  foldl (λ out l, out +:+ l +:+ Py.nl) out lines.

(** The loop of [extract_sequences] over the records, with the text written
    to the output file so far. *)
Fixpoint extract_loop (wanted_ids : gset string)
    (records : list (string * string)) (out : string) : outcome unit * string :=
  match records with
  | [] => (Ok (), out)
  | (header, seq) :: records' =>
      match Py.split header with
      | [] => (Raise IndexError, out)
      | primary_id :: _ =>
          if decide (primary_id ∈ wanted_ids)
          then extract_loop wanted_ids records'
                 (write_lines (out +:+ ">" +:+ header +:+ Py.nl) (wrap 60 seq))
          else extract_loop wanted_ids records' out
      end
  end.

(** [extract_sequences]: the output file is opened (and truncated) first,
    the input file when the first record is asked for. *)
Definition extract_sequences (fasta_path : string) (wanted_ids : gset string)
    (out_fasta : string) : M unit := λ w,
  let fs := <[out_fasta := ""]> (files w) in
  match fs !! fasta_path with
  | None => (Raise FileNotFoundError, mkWorld fs (stdout w))
  | Some content =>
      let '(o, out) :=
        extract_loop wanted_ids (fasta_iterator (Py.readlines content)) "" in
      (o, mkWorld (<[out_fasta := out]> fs) (stdout w))
  end.

(* ================================================================== *)
(** * The alignment table *)
(* ================================================================== *)

(** 35.0 and the float64 nearest to 1e-7 (0x1.ad7f29abcaf48p-24). *)
Definition IDENTITY_THRESHOLD : spec_float :=
  S754_finite false 4925812092436480 (-47).
Definition EVALUE_THRESHOLD : spec_float :=
  S754_finite false 7555786372591432 (-76).

Definition BLAST_COLUMNS : list string :=
  [ "query_ID"; "subject_ID"; "%identity"; "alignment_length"; "mismatches";
    "gap_opens"; "q_start"; "q_end"; "s_start"; "s_end"; "evalue";
    "bit_score" ].

(** A cell as the reader leaves it: a number (a missing cell is NaN) or, in
    a column that did not parse as numbers, the text of the field. *)
Inductive cell :=
  | Number (x : spec_float)
  | Text (s : string).

(** One row with the columns of [BLAST_COLUMNS]; [N] is the type of the two
    columns the loader coerces. The identifiers of a valid table are
    strings. *)
Record AlignmentRecord (N : Type) := mkRecord {
  query_ID : string;
  subject_ID : string;
  pct_identity : N;
  alignment_length : cell;
  mismatches : cell;
  gap_opens : cell;
  q_start : cell;
  q_end : cell;
  s_start : cell;
  s_end : cell;
  evalue : N;
  bit_score : cell;
}.
Arguments mkRecord {N}.
Arguments query_ID {N}.
Arguments subject_ID {N}.
Arguments pct_identity {N}.
Arguments alignment_length {N}.
Arguments mismatches {N}.
Arguments gap_opens {N}.
Arguments q_start {N}.
Arguments q_end {N}.
Arguments s_start {N}.
Arguments s_end {N}.
Arguments evalue {N}.
Arguments bit_score {N}.

Abbreviation RawRow := (AlignmentRecord cell).
Abbreviation Row := (AlignmentRecord spec_float).
Abbreviation DataFrame := (list Row).

(** The missing value. *)
Definition isna (x : spec_float) : bool :=
  match x with S754_nan => true | _ => false end.

(** [Series.unique()] and [drop_duplicates(key)]: the first row of each key
    is kept, in order of appearance; [seen] is the table of keys met. *)
Fixpoint drop_duplicates_go {A} (key : A → string) (seen : gset string)
    (rows : list A) : list A :=
  match rows with
  | [] => []
  | r :: rows' =>
      if decide (key r ∈ seen) then drop_duplicates_go key seen rows'
      else r :: drop_duplicates_go key ({[key r]} ∪ seen) rows'
  end.

Definition drop_duplicates {A} (key : A → string) (rows : list A) : list A :=
  drop_duplicates_go key ∅ rows.

Definition unique (ids : list string) : list string := drop_duplicates id ids.

(** [df.loc[df["%identity"] >= IDENTITY_THRESHOLD, "subject_ID"].unique()] *)
Definition list1_of (df : DataFrame) : list string :=
  unique (subject_ID <$>
    filter (λ r, SFleb IDENTITY_THRESHOLD (pct_identity r)) df).

(** [df.loc[df["evalue"] <= EVALUE_THRESHOLD, "subject_ID"].unique()] *)
Definition list2_of (df : DataFrame) : list string :=
  unique (subject_ID <$>
    filter (λ r, SFleb (evalue r) EVALUE_THRESHOLD) df).

Definition list1_file (outdir : string) : string :=
  path_join outdir "list1_identity_ge35.txt".
Definition list2_file (outdir : string) : string :=
  path_join outdir "list2_evalue_le1e-7.txt".

Definition make_lists (df : DataFrame) (outdir : string)
  : M (gset string * gset string) :=
  let list1 := list1_of df in
  let list2 := list2_of df in
  write_text (list1_file outdir) (Py.join Py.nl list1 +:+ Py.nl);;
  write_text (list2_file outdir) (Py.join Py.nl list2 +:+ Py.nl);;
  mret (list_to_set list1, list_to_set list2).

(** [f"{n:3d}"] *)
Definition fmt_3d (n : nat) : string :=
  let digits := pretty n in
  String.concat "" (replicate (3 - Py.len digits) " ") +:+ digits.

Definition compare_lists (list1 list2 : gset string) : M unit :=
  let common := list1 ∩ list2 in
  let only_a := list1 ∖ list2 in
  let only_b := list2 ∖ list1 in
  print (Py.nl +:+ "─── List comparison ───────────────────────────────────────────────");;
  print ("Hits fulfilling (a) only         : " +:+ fmt_3d (size only_a));;
  print ("Hits fulfilling (b) only         : " +:+ fmt_3d (size only_b));;
  print ("Hits fulfilling both criteria   : " +:+ fmt_3d (size common) +:+ Py.nl);;
  if decide (size list2 < size list1) then
    print "Criterion (a) (identity ≥ 35 %) retrieves more candidates more than (b)."
  else if decide (size list1 < size list2) then
    print "Criterion (b) (E‑value ≤ 1 × 10⁻⁷) retrieves more candidates more than (a)."
  else
    print "Both criteria retrieve the same number of candidates.".

(** The order [sort_values("%identity", ascending=False)] puts two rows in:
    a larger identity first, a missing identity after everything else. *)
Definition identity_geb (a b : Row) : bool :=
  isna (pct_identity b)
  || (negb (isna (pct_identity a)) && SFleb (pct_identity b) (pct_identity a)).

Definition identity_ge (a b : Row) : Prop := identity_geb a b.

Global Instance identity_ge_dec : RelDecision identity_ge.
Proof. intros a b. unfold identity_ge. apply _. Defined.

(** What [sort_values] promises with its default [kind]: the rows come back
    rearranged in the order above. The call does not ask for a stable
    kind, so nothing is said of rows with equal identity. *)
Definition sorts_descending (sort_values : list Row → list Row) : Prop :=
  ∀ rows, sort_values rows ≡ₚ rows ∧ Sorted identity_ge (sort_values rows).

Section Script.

(** The parts of the script that live in its libraries: the number parser
    of [pd.to_numeric], the reader [pd.read_csv] with the arguments of
    [load_blast_table] (given the content of the file, if there is one),
    the sort of [DataFrame.sort_values], and the rendering of the figure
    to the bytes of the image. *)
Variable parse_float : string → option spec_float.
Variable read_csv : option string → outcome (list RawRow).
Variable sort_values : list Row → list Row.
Variable savefig : list Row → string.

(** [pd.to_numeric(_, errors="coerce")] on one cell. *)
Definition to_numeric (c : cell) : spec_float :=
  match c with
  | Number x => x
  | Text s => default S754_nan (parse_float s)
  end.

Definition coerce (r : RawRow) : Row :=
  mkRecord (query_ID r) (subject_ID r) (to_numeric (pct_identity r))
    (alignment_length r) (mismatches r) (gap_opens r) (q_start r) (q_end r)
    (s_start r) (s_end r) (to_numeric (evalue r)) (bit_score r).

Definition load_blast_table (path : string) : M DataFrame := λ w,
  match read_csv (files w !! path) with
  | Ok df => (Ok (coerce <$> df), w)
  | Raise e => (Raise e, w)
  end.

(** The rows of the heat-map, in the order they are drawn. *)
Definition heatmap_rows (df : DataFrame) (shared_ids : gset string)
  : list Row :=
  let subset := filter (λ r, subject_ID r ∈ shared_ids) df in
  let subset := drop_duplicates subject_ID subset in
  sort_values subset.

Definition plot_heatmap (df : DataFrame) (shared_ids : gset string)
    (out_png : string) : M unit :=
  write_text out_png (savefig (heatmap_rows df shared_ids)).

Definition sys_exit : M unit := raise (SystemExit None).

Definition main (blast fasta outdir : string) : M unit :=
  blast_df ← load_blast_table blast;
  lists ← make_lists blast_df outdir;
  let '(list1, list2) := lists in
  compare_lists list1 list2;;
  let shared := list1 ∩ list2 in
  (if decide (shared = ∅) then
     print "No shared hits – nothing more to do.";;
     sys_exit
   else mret ());;
  let heatmap_png := path_join outdir "shared_hits_heatmap.png" in
  plot_heatmap blast_df shared heatmap_png;;
  print ("Heat‑map saved as: " +:+ heatmap_png);;
  let fasta_out := path_join outdir "shared_hits_sequences.fasta" in
  extract_sequences fasta shared fasta_out;;
  print ("FASTA of shared hit sequences written to: " +:+ fasta_out +:+ Py.nl).

End Script.


(* ================================================================== *)
(** * Vocabulary of the statements *)
(* ================================================================== *)

(** A header-marker line, as it stands in the file. *)
Definition is_header (line : string) : Prop := Py.startswith ">" line.

(** The end of the file, or a header line, comes next. *)
Definition at_record_end (fh : list string) : Prop :=
  match fh with
  | [] => True
  | line :: _ => is_header line
  end.

(** [header.split()[0]], when there is one. *)
Definition primary_id (header : string) : option string :=
  head (Py.split header).

(** The text written for one record: its header line and its wrapped
    sequence. *)
Definition record_text (r : string * string) : string :=
  write_lines (">" +:+ r.1 +:+ Py.nl) (wrap 60 r.2).

(** The record's primary identifier is one of the wanted ones. *)
Definition is_wanted (wanted_ids : gset string) (r : string * string) : Prop :=
  match primary_id r.1 with
  | Some id => id ∈ wanted_ids
  | None => False
  end.

Global Instance is_wanted_dec wanted_ids r : Decision (is_wanted wanted_ids r).
Proof. unfold is_wanted. destruct (primary_id r.1); apply _. Defined.


(** A header with no word in it: empty, or white space only. *)
Fixpoint blank (s : string) : Prop :=
  match s with
  | "" => True
  | String c s' => Py.isspace c ∧ blank s'
  end.

(** [r] is the first row of [rows] with its key: no row before it has the
    same one. *)
Definition first_of_key {A} (key : A → string) (rows : list A) (r : A) : Prop :=
  ∃ pre post, rows = pre ++ r :: post ∧ key r ∉ key <$> pre.

(** [r1] stands somewhere before [r2] in [rows]. *)
Definition precedes {A} (rows : list A) (r1 r2 : A) : Prop :=
  ∃ l1 l2 l3, rows = l1 ++ r1 :: l2 ++ r2 :: l3.

(** Rows with equal identity are in [after] in the order they have in
    [before]: what a stable sort would guarantee. *)
Definition keeps_tie_order (before after : list Row) : Prop :=
  ∀ r1 r2, pct_identity r1 = pct_identity r2 →
    precedes before r1 r2 → precedes after r1 r2.

(** A sort that keeps the promise of [sort_values]: the merge sort of stdpp
    on the order above. *)
Definition merge_sort_values (rows : list Row) : list Row :=
  merge_sort identity_ge rows.

(** A row of a table, with the columns the script does not look at left
    empty. *)
Definition hit (query subject : string) (identity e : spec_float) : Row :=
  mkRecord query subject identity (Text "") (Text "") (Text "") (Text "")
    (Text "") (Text "") (Text "") e (Text "").

(** 30.0, 40.0 and 50.0; the float64 nearest to 1e-9 and to 1e-5. *)
Definition f30 : spec_float := S754_finite false 8444249301319680 (-48).
Definition f40 : spec_float := S754_finite false 5629499534213120 (-47).
Definition f50 : spec_float := S754_finite false 7036874417766400 (-47).
Definition f1e_9 : spec_float := S754_finite false 4835703278458517 (-82).
Definition f1e_5 : spec_float := S754_finite false 5902958103587057 (-69).

(** No line feed in the string. *)
Fixpoint no_lf (s : string) : Prop :=
  match s with
  | "" => True
  | String c s' => c ≠ Py.LF ∧ no_lf s'
  end.

(** A line as a text file yields it: some characters other than line feed,
    ended by a line feed, or not ended (the last line of a file that does
    not end with one). *)
Definition file_line (line : string) : Prop :=
  ∃ body, no_lf body ∧ (line = body +:+ Py.nl ∨ (line = body ∧ body ≠ "")).

(** No white space in the string. *)
Fixpoint spaceless (s : string) : Prop :=
  match s with
  | "" => True
  | String c s' => ¬ Py.isspace c ∧ spaceless s'
  end.

(** The string is over, or goes on with white space. *)
Definition at_space (s : string) : Prop :=
  match s with
  | "" => True
  | String c _ => Py.isspace c
  end.

(** The line written for [l]. *)
Definition with_nl (l : string) : string := l +:+ Py.nl.



(** The two files of the later steps of the script. *)
Definition heatmap_file (outdir : string) : string :=
  path_join outdir "shared_hits_heatmap.png".
Definition fasta_file (outdir : string) : string :=
  path_join outdir "shared_hits_sequences.fasta".

(** The files the script writes into. *)
Definition output_files (outdir : string) : list string :=
  [list1_file outdir; list2_file outdir; heatmap_file outdir; fasta_file outdir].

(** A row as the reader leaves it, with numbers in the two columns the
    loader coerces. *)
Definition raw_hit (query subject : string) (identity e : spec_float) : RawRow :=
  mkRecord query subject (Number identity) (Text "") (Text "") (Text "")
    (Text "") (Text "") (Text "") (Text "") (Number e) (Text "").

(** [k] line feeds. *)
Definition line_feeds (k : nat) : string := Py.join "" (replicate k Py.nl).

(** The shape of a sequence wrapped at width [w]: no empty line, no line
    longer than [w], and only the last line may be shorter. *)
Definition wrapped (w : nat) (lines : list string) : Prop :=
  ∀ i line, lines !! i = Some line →
    1 ≤ Py.len line ≤ w ∧ (S i < length lines → Py.len line = w).

(** The cell holds the number [x]: it is that number, or a text that reads
    as that number, and the number is not the missing value. *)
Inductive cell_value (parse_float : string → option spec_float)
  : cell → spec_float → Prop :=
  | value_number x :
      isna x = false → cell_value parse_float (Number x) x
  | value_text s x :
      parse_float s = Some x → isna x = false →
      cell_value parse_float (Text s) x.

(** The cell holds no number: it is the missing value, or a text that does
    not read as a number. *)
Definition cell_missing (parse_float : string → option spec_float)
    (c : cell) : Prop :=
  ∀ x, ¬ cell_value parse_float c x.

(** A name of one component: not empty, no separator in it, and neither of
    the two names that stand for a directory itself or its parent. *)
Fixpoint no_slash (s : string) : Prop :=
  match s with
  | "" => True
  | String c s' => c ≠ "/"%char ∧ no_slash s'
  end.

Definition plain_name (s : string) : Prop :=
  s ≠ "" ∧ s ≠ "." ∧ s ≠ ".." ∧ no_slash s.

(** A path written as a plain name, or as a plain name inside a directory
    with a plain name: two such paths name the same file only when they are
    the same string. *)
Definition plain_path (p : string) : Prop :=
  plain_name p ∨
  ∃ dir name, plain_name dir ∧ plain_name name ∧ p = path_join dir name.

(** The table of four rows with identities 40, 40, 50 and 50. *)
Definition ties_table : DataFrame :=
  [hit "Q1" "S1" f40 f1e_9; hit "Q2" "S2" f40 f1e_9;
   hit "Q3" "S3" f50 f1e_9; hit "Q4" "S4" f50 f1e_9].

(** A sort that puts a row in front of the rows already placed that are not
    above it: it returns the rows in descending order, and rows of equal
    identity in the reverse of the order they came in. *)
Fixpoint insert_front (x : Row) (placed : list Row) : list Row :=
  match placed with
  | [] => [x]
  | y :: placed' =>
      if decide (identity_ge x y) then x :: y :: placed'
      else y :: insert_front x placed'
  end.

Definition front_sort_values (rows : list Row) : list Row :=
  foldl (λ placed x, insert_front x placed) [] rows.

(* ================================================================== *)
(** * Facts about Python strings *)
(* ================================================================== *)

Section StringFacts.

Implicit Types (s t : string) (n m w : nat).

Lemma str_app_cons c s t : String c s +:+ t = String c (s +:+ t).
Proof. reflexivity. Qed.

Lemma str_app_empty_l s : "" +:+ s = s.
Proof. reflexivity. Qed.

Lemma str_app_empty_r s : s +:+ "" = s.
Proof. induction s; [done|]. rewrite str_app_cons. congruence. Qed.

Lemma str_app_assoc s t u : (s +:+ t) +:+ u = s +:+ t +:+ u.
Proof. induction s; [done|]. rewrite !str_app_cons. congruence. Qed.

Lemma len_cons c s : Py.len (String c s) = S (Py.len s).
Proof. reflexivity. Qed.

Lemma len_app s t : Py.len (s +:+ t) = Py.len s + Py.len t.
Proof. induction s; [done|]. rewrite str_app_cons, !len_cons. lia. Qed.

Lemma len_zero s : Py.len s = 0 → s = "".
Proof. by destruct s. Qed.

Lemma take_empty n : Py.take n "" = "".
Proof. by destruct n. Qed.

Lemma drop_empty n : Py.drop n "" = "".
Proof. by destruct n. Qed.

Lemma len_take n s : Py.len (Py.take n s) = n `min` Py.len s.
Proof.
  revert s. induction n as [|n IH]; intros [|c s]; try done.
  cbn [Py.take]. rewrite !len_cons, IH. done.
Qed.

Lemma len_drop n s : Py.len (Py.drop n s) = Py.len s - n.
Proof.
  revert s. induction n as [|n IH]; intros [|c s]; try done.
  cbn [Py.drop]. rewrite len_cons, IH. lia.
Qed.

Lemma take_drop n s : Py.take n s +:+ Py.drop n s = s.
Proof.
  revert s. induction n as [|n IH]; intros [|c s]; try done.
  cbn [Py.take Py.drop]. by rewrite str_app_cons, IH.
Qed.

Lemma drop_drop n m s : Py.drop n (Py.drop m s) = Py.drop (m + n) s.
Proof.
  revert s. induction m as [|m IH]; intros [|c s]; simpl; try done.
  by rewrite drop_empty.
Qed.

Lemma len_slice lo w s :
  Py.len (Py.slice lo (lo + w) s) = w `min` (Py.len s - lo).
Proof.
  unfold Py.slice. rewrite len_take, len_drop.
  replace (lo + w - lo) with w by lia. done.
Qed.

Lemma slice_shift lo w w' s :
  Py.slice (lo + w) (lo + w + w') s = Py.slice lo (lo + w') (Py.drop w s).
Proof.
  unfold Py.slice. rewrite drop_drop.
  replace (lo + w + w' - (lo + w)) with w' by lia.
  replace (lo + w' - lo) with w' by lia.
  by replace (w + lo) with (lo + w) by lia.
Qed.

Lemma join_cons s ls : Py.join "" (s :: ls) = s +:+ Py.join "" ls.
Proof. destruct ls; simpl; [by rewrite str_app_empty_r | done]. Qed.


(** The number of steps of [range(0, stop, step)]. *)
Lemma range0_length stop w : length (Py.range0 stop w) = (stop + w - 1) `div` w.
Proof. unfold Py.range0. by rewrite length_fmap, length_seq. Qed.

Lemma range0_lookup stop w i :
  i < (stop + w - 1) `div` w → Py.range0 stop w !! i = Some (i * w).
Proof.
  intros Hi. unfold Py.range0. rewrite list_lookup_fmap.
  rewrite lookup_seq_lt by done. done.
Qed.

Lemma steps_lt stop w i :
  0 < w → i < (stop + w - 1) `div` w ↔ i * w < stop.
Proof.
  intros Hw. split.
  - intros Hi.
    assert (S i ≤ (stop + w - 1) `div` w) as Hle by lia.
    assert (w * S i ≤ stop + w - 1); [|nia].
    etrans; [apply Nat.mul_le_mono_l, Hle|].
    apply Nat.Div0.mul_div_le.
  - intros Hi. apply Nat.div_le_lower_bound with (q := S i); [lia|nia].
Qed.

Lemma steps_zero w : (0 + w - 1) `div` w = 0.
Proof.
  destruct w as [|w]; [done|]. apply Nat.div_small. lia.
Qed.

Lemma steps_succ stop w :
  0 < w → 0 < stop →
  (stop + w - 1) `div` w = S ((stop - w + w - 1) `div` w).
Proof.
  intros Hw Hs. destruct (decide (w ≤ stop)) as [Hle|Hlt].
  - replace (stop + w - 1) with ((stop - w + w - 1) + 1 * w) by lia.
    rewrite Nat.div_add by lia. lia.
  - replace (stop - w + w - 1) with (w - 1) by lia.
    rewrite (Nat.div_small (w - 1)) by lia.
    symmetry. apply Nat.div_unique with (r := stop - 1). all: lia.
Qed.

End StringFacts.

(* ================================================================== *)
(** * Wrapping a sequence at a fixed width *)
(* ================================================================== *)

Lemma wrap_empty w : wrap w "" = [].
Proof.
  unfold wrap, Py.range0. change (Py.len "") with 0. by rewrite steps_zero.
Qed.

Lemma wrap_length w seq :
  length (wrap w seq) = (Py.len seq + w - 1) `div` w.
Proof. unfold wrap. by rewrite length_fmap, range0_length. Qed.

Lemma wrap_lookup w seq i :
  i < (Py.len seq + w - 1) `div` w →
  wrap w seq !! i = Some (Py.slice (i * w) (i * w + w) seq).
Proof.
  intros Hi. unfold wrap. rewrite list_lookup_fmap, range0_lookup by done. done.
Qed.

(** The loop peels one full-width slice off the front at each step. *)
Lemma wrap_step w seq :
  0 < w → 0 < Py.len seq →
  wrap w seq = Py.take w seq :: wrap w (Py.drop w seq).
Proof.
  intros Hw Hs. unfold wrap, Py.range0.
  rewrite steps_succ, len_drop by done. simpl.
  f_equal.
  - unfold Py.slice. simpl. f_equal. lia.
  - rewrite <- fmap_S_seq, <- !list_fmap_compose.
    apply list_fmap_ext. intros _ k _. simpl.
    replace (w + k * w) with (k * w + w) by lia. apply slice_shift.
Qed.

Lemma join_wrap w seq : 0 < w → Py.join "" (wrap w seq) = seq.
Proof.
  intros Hw. remember (Py.len seq) as n eqn:Hn.
  revert seq Hn. induction (lt_wf n) as [n _ IH]. intros seq ->.
  destruct (decide (Py.len seq = 0)) as [H0|Hpos].
  - apply len_zero in H0 as ->. by rewrite wrap_empty.
  - rewrite wrap_step, join_cons by lia.
    rewrite (IH (Py.len (Py.drop w seq))); [apply take_drop| |done].
    rewrite len_drop. lia.
Qed.

Lemma wrap_line_length w seq i line :
  0 < w → wrap w seq !! i = Some line →
  Py.len line = w `min` (Py.len seq - i * w) ∧ i * w < Py.len seq.
Proof.
  intros Hw Hline.
  assert (i < (Py.len seq + w - 1) `div` w) as Hi.
  { rewrite <- wrap_length. by eapply lookup_lt_Some. }
  rewrite wrap_lookup in Hline by done. injection Hline as <-.
  split; [apply len_slice | by apply steps_lt].
Qed.

Lemma wrap_multiple w seq k :
  0 < w → Py.len seq = w * k →
  length (wrap w seq) = k ∧ Forall (λ line, Py.len line = w) (wrap w seq).
Proof.
  intros Hw Hlen.
  assert (length (wrap w seq) = k) as Hk.
  { rewrite wrap_length, Hlen.
    symmetry. apply Nat.div_unique with (r := w - 1); lia. }
  split; [done|]. apply Forall_lookup. intros i line Hline.
  pose proof (lookup_lt_Some _ _ _ Hline) as Hi.
  destruct (wrap_line_length _ _ _ _ Hw Hline) as [-> _]. nia.
Qed.

Lemma take_all n s : Py.len s ≤ n → Py.take n s = s.
Proof.
  revert s. induction n as [|n IH]; intros [|c s]; try done.
  - rewrite len_cons. lia.
  - rewrite len_cons. intros Hn. cbn [Py.take]. rewrite IH; [done|lia].
Qed.

Lemma drop_all n s : Py.len s ≤ n → Py.drop n s = "".
Proof.
  revert s. induction n as [|n IH]; intros [|c s]; try done.
  - rewrite len_cons. lia.
  - rewrite len_cons. intros Hn. cbn [Py.drop]. apply IH. lia.
Qed.

Lemma take_app_exact s t : Py.take (Py.len s) (s +:+ t) = s.
Proof.
  induction s as [|c s IH]; [by destruct t|].
  rewrite len_cons, str_app_cons. cbn [Py.take]. by rewrite IH.
Qed.

Lemma drop_app_exact s t : Py.drop (Py.len s) (s +:+ t) = t.
Proof.
  induction s as [|c s IH]; [done|].
  rewrite len_cons, str_app_cons. cbn [Py.drop]. done.
Qed.

(** Lines that have the shape of a wrapped sequence are what wrapping their
    concatenation gives. *)
Lemma wrap_wrapped w lines :
  0 < w → wrapped w lines → wrap w (Py.join "" lines) = lines.
Proof.
  intros Hw. induction lines as [|l lines IH]; intros Hshape.
  - apply wrap_empty.
  - destruct (Hshape 0 l eq_refl) as [[Hpos Hle] Hfull].
    rewrite join_cons, wrap_step by (rewrite ?len_app; lia).
    destruct lines as [|l' lines].
    + change (Py.join "" []) with "". rewrite str_app_empty_r.
      by rewrite take_all, drop_all, wrap_empty by done.
    + assert (Py.len l = w) as Hl by (apply Hfull; cbn; lia).
      rewrite <- Hl at 1 3. rewrite take_app_exact, drop_app_exact.
      f_equal. apply IH. intros i x Hx.
      destruct (Hshape (S i) x Hx) as [Hlen Hnext].
      split; [done|]. intros Hi. apply Hnext. cbn in *. lia.
Qed.

Lemma wrap_wrapped_self w seq : 0 < w → wrapped w (wrap w seq).
Proof.
  intros Hw i line Hline.
  destruct (wrap_line_length w seq i line Hw Hline) as [Hlen Hi].
  split; [lia|]. intros Hnext.
  rewrite wrap_length in Hnext. apply steps_lt in Hnext; lia.
Qed.

(** C6. Wrapping at width 60 cuts the sequence into consecutive slices: the
    lines put together are the sequence, and line [i] is [seq[60i:60i+60]].
    There are as many lines as the length divided by 60, rounded up. Every
    line has 60 characters except the last, which has what is left, between
    1 and 60; a sequence of 60*k characters gives exactly k lines of 60
    characters, hence no empty line at the end. Wrapping the concatenation
    of lines that already have this shape gives the same lines again, in
    particular for the lines of a wrapped sequence. *)
Theorem wrap_60_lines (seq line : string) (lines : list string) (i k : nat) :
  Py.join "" (wrap 60 seq) = seq ∧
  length (wrap 60 seq) = (Py.len seq + 59) `div` 60 ∧
  (wrap 60 seq !! i = Some line →
     line = Py.slice (60 * i) (60 * i + 60) seq ∧
     1 ≤ Py.len line ≤ 60 ∧
     (S i < length (wrap 60 seq) → Py.len line = 60) ∧
     (S i = length (wrap 60 seq) → Py.len line = Py.len seq - 60 * i)) ∧
  (Py.len seq = 60 * k →
     length (wrap 60 seq) = k ∧
     Forall (λ l, Py.len l = 60) (wrap 60 seq)) ∧
  (wrapped 60 lines → wrap 60 (Py.join "" lines) = lines) ∧
  wrap 60 (Py.join "" (wrap 60 seq)) = wrap 60 seq.
Proof.
  split; [apply join_wrap; lia|].
  split; [rewrite wrap_length; f_equal; lia|].
  split; [|split; [|split]].
  - intros Hline.
    destruct (wrap_line_length 60 seq i line) as [Hlen Hi]; [lia|done|].
    assert (i < (Py.len seq + 60 - 1) `div` 60) as Hlt.
    { rewrite <- wrap_length. by eapply lookup_lt_Some. }
    split.
    { rewrite wrap_lookup in Hline by done. injection Hline as <-.
      by replace (60 * i) with (i * 60) by lia. }
    split; [lia|]. split.
    + intros Hnext. rewrite wrap_length in Hnext.
      apply steps_lt in Hnext; lia.
    + intros Hlast.
      assert (¬ S i < (Py.len seq + 60 - 1) `div` 60) as Hno.
      { rewrite <- wrap_length. lia. }
      rewrite steps_lt in Hno by lia. lia.
  - apply wrap_multiple. lia.
  - apply wrap_wrapped. lia.
  - rewrite join_wrap; [done|lia].
Qed.

Lemma wrap_60_lines_witness :
  let seq := Py.join "" (replicate 125 "A") in
  let line := Py.join "" (replicate 5 "A") in
  let full := Py.join "" (replicate 60 "A") in
  wrap 60 seq !! 2 = Some line ∧ Py.len line = 5 ∧
  wrap 60 (Py.join "" [full; full; line]) = [full; full; line] ∧
  length (wrap 60 (full +:+ full)) = 2.
Proof.
  intros seq line full.
  destruct (wrap_60_lines seq line [full; full; line] 2 0)
    as (_ & _ & Hline & _ & Hshape & _).
  destruct (wrap_60_lines (full +:+ full) "" [] 0 2) as (_ & _ & _ & Hfull & _).
  assert (wrap 60 seq !! 2 = Some line) as H2 by (vm_compute; reflexivity).
  destruct (Hline H2) as (_ & _ & _ & Hlast).
  split; [exact H2|].
  split; [rewrite Hlast; vm_compute; reflexivity|].
  split.
  - apply Hshape. intros j l Hl.
    destruct j as [|[|[|j]]]; cbn in Hl; try discriminate Hl;
      injection Hl as <-; (split; [vm_compute; lia|]);
      intros Hj; cbn in Hj; try lia; vm_compute; reflexivity.
  - apply Hfull. vm_compute. reflexivity.
Defined.

(** The scenario of the specification: a body of 125 characters is written
    as two lines of 60 characters and one of 5. *)
Example wrap_125 :
  Py.len <$> wrap 60 (Py.join "" (replicate 125 "A")) = [60; 60; 5].
Proof. vm_compute. reflexivity. Qed.

(* ================================================================== *)
(** * The streaming reader *)
(* ================================================================== *)

Lemma startswith_gt c s :
  Py.startswith ">" (String c s) = bool_decide (c = ">"%char).
Proof.
  unfold Py.startswith.
  change (String.prefix ">" (String c s))
    with (if ascii_dec ">" c then String.prefix "" s else false).
  destruct (ascii_dec ">" c) as [<-|Hne].
  - by destruct s.
  - symmetry. apply bool_decide_eq_false. congruence.
Qed.

(** Stripping its line feed does not change whether a line is a header. *)
Lemma startswith_rstrip line :
  Py.startswith ">" (Py.rstrip_nl line) = Py.startswith ">" line.
Proof.
  destruct line as [|c s]; [done|]. cbn [Py.rstrip_nl].
  destruct (Py.rstrip_nl s) as [|c' r].
  - case_decide as Hc; rewrite !startswith_gt; [|done].
    subst c. done.
  - by rewrite !startswith_gt.
Qed.

Lemma fasta_loop_header line fh header seq_lines :
  is_header line →
  fasta_loop (line :: fh) header seq_lines
  = emit header seq_lines
      ++ fasta_loop fh (Some (Py.drop 1 (Py.rstrip_nl line))) [].
Proof.
  unfold is_header. intros Hh. cbn [fasta_loop].
  rewrite startswith_rstrip. by destruct (Py.startswith ">" line).
Qed.

Lemma fasta_loop_body line fh header seq_lines :
  ¬ is_header line →
  fasta_loop (line :: fh) header seq_lines
  = fasta_loop fh header (seq_lines ++ [Py.rstrip_nl line]).
Proof.
  unfold is_header. intros Hh. cbn [fasta_loop].
  rewrite startswith_rstrip. by destruct (Py.startswith ">" line).
Qed.

(** Lines that are not headers only grow the buffer. *)
Lemma fasta_loop_bodies body fh header seq_lines :
  Forall (λ l, ¬ is_header l) body →
  fasta_loop (body ++ fh) header seq_lines
  = fasta_loop fh header (seq_lines ++ (Py.rstrip_nl <$> body)).
Proof.
  intros Hbody. revert seq_lines.
  induction Hbody as [|l body Hl _ IH]; intros seq_lines.
  - by rewrite app_nil_r.
  - rewrite <- app_comm_cons, fasta_loop_body by done.
    rewrite IH, <- app_assoc. done.
Qed.

(** Whatever is in the buffer when the first header is met is dropped. *)
Lemma fasta_loop_no_header fh seq_lines :
  fasta_loop fh None seq_lines = fasta_loop fh None [].
Proof.
  revert seq_lines. induction fh as [|l fh IH]; intros seq_lines; [done|].
  destruct (decide (is_header l)) as [Hl|Hl].
  - by rewrite !fasta_loop_header.
  - rewrite !fasta_loop_body by done. rewrite IH.
    symmetry. apply IH.
Qed.

(** At the end of a record the pending one is yielded, and the reader goes
    on as from a fresh file. *)
Lemma fasta_loop_record_end fh h seq_lines :
  at_record_end fh →
  fasta_loop fh (Some h) seq_lines
  = (h, Py.join "" seq_lines) :: fasta_iterator fh.
Proof.
  destruct fh as [|l fh]; [done|]. cbn [at_record_end]. intros Hl.
  unfold fasta_iterator. by rewrite !fasta_loop_header.
Qed.

Lemma fasta_loop_length fh header seq_lines :
  length (fasta_loop fh header seq_lines)
  = length (filter is_header fh) + length (emit header seq_lines).
Proof.
  revert header seq_lines.
  induction fh as [|l fh IH]; intros header seq_lines; [done|].
  destruct (decide (is_header l)) as [Hl|Hl].
  - rewrite fasta_loop_header, filter_cons_True by done.
    rewrite length_app, IH. simpl. lia.
  - rewrite fasta_loop_body, filter_cons_False by done.
    rewrite IH. by destruct header.
Qed.

(** C3. The reader yields one pair per header line; lines before the first
    header yield nothing; and a header line followed by lines that are not
    headers, up to the next header or the end of the file, yields the text
    after the marker with the concatenation of those lines, line feeds
    stripped. The end of the file closes the last record like a header. *)
Theorem fasta_iterator_records (fh pre body rest : list string) (line : string) :
  length (fasta_iterator fh) = length (filter is_header fh) ∧
  (Forall (λ l, ¬ is_header l) pre →
     fasta_iterator pre = [] ∧
     fasta_iterator (pre ++ fh) = fasta_iterator fh) ∧
  (is_header line → Forall (λ l, ¬ is_header l) body → at_record_end rest →
     fasta_iterator (line :: body ++ rest)
     = (Py.drop 1 (Py.rstrip_nl line), Py.join "" (Py.rstrip_nl <$> body))
         :: fasta_iterator rest).
Proof.
  split; [|split].
  - unfold fasta_iterator. rewrite fasta_loop_length. simpl. lia.
  - intros Hpre. unfold fasta_iterator.
    split.
    + rewrite <- (app_nil_r pre), fasta_loop_bodies by done. done.
    + rewrite fasta_loop_bodies by done. apply fasta_loop_no_header.
  - intros Hline Hbody Hrest. unfold fasta_iterator at 1.
    rewrite fasta_loop_header, fasta_loop_bodies by done.
    by rewrite fasta_loop_record_end.
Qed.

Lemma fasta_iterator_records_witness :
  fasta_iterator ["junk"; ">S1 desc" +:+ Py.nl; "ACGT" +:+ Py.nl; "GG"]
  = [("S1 desc", "ACGTGG")].
Proof.
  destruct (fasta_iterator_records
              [">S1 desc" +:+ Py.nl; "ACGT" +:+ Py.nl; "GG"] ["junk"]
              ["ACGT" +:+ Py.nl; "GG"] [] (">S1 desc" +:+ Py.nl))
    as (_ & Hpre & Hrec).
  assert (Forall (λ l, ¬ is_header l) ["junk"]) as H1.
  { repeat constructor. vm_compute. exact id. }
  assert (Forall (λ l, ¬ is_header l) ["ACGT" +:+ Py.nl; "GG"]) as H2.
  { repeat constructor; vm_compute; exact id. }
  destruct (Hpre H1) as [_ Heq].
  change (fasta_iterator (["junk"] ++ [">S1 desc" +:+ Py.nl; "ACGT" +:+ Py.nl; "GG"])
          = [("S1 desc", "ACGTGG")]).
  rewrite Heq.
  change (fasta_iterator ((">S1 desc" +:+ Py.nl) :: ["ACGT" +:+ Py.nl; "GG"] ++ [])
          = [("S1 desc", "ACGTGG")]).
  rewrite Hrec; [reflexivity | vm_compute; exact I | exact H2 | exact I].
Defined.

Example fasta_iterator_two :
  fasta_iterator (Py.readlines
    (">S1 desc" +:+ Py.nl +:+ "ACGT" +:+ Py.nl +:+ "GG" +:+ Py.nl
     +:+ ">S2" +:+ Py.nl +:+ "TT"))
  = [("S1 desc", "ACGTGG"); ("S2", "TT")].
Proof. reflexivity. Qed.

(* ================================================================== *)
(** * The extractor *)
(* ================================================================== *)

Lemma write_lines_app out text lines :
  write_lines (out +:+ text) lines = out +:+ write_lines text lines.
Proof.
  revert text. induction lines as [|l lines IH]; intros text; [done|].
  cbn [write_lines foldl]. fold (write_lines ((out +:+ text) +:+ l +:+ Py.nl) lines).
  fold (write_lines (text +:+ l +:+ Py.nl) lines).
  by rewrite str_app_assoc, IH.
Qed.

Lemma extract_loop_wanted wanted_ids header seq records out :
  is_wanted wanted_ids (header, seq) →
  extract_loop wanted_ids ((header, seq) :: records) out
  = extract_loop wanted_ids records (out +:+ record_text (header, seq)).
Proof.
  unfold is_wanted, primary_id, record_text. cbn [extract_loop fst snd].
  destruct (Py.split header) as [|id ids]; [done|]. cbn [head].
  intros Hid. rewrite decide_True by done. by rewrite write_lines_app.
Qed.

Lemma extract_loop_unwanted wanted_ids header seq records out :
  is_Some (primary_id header) → ¬ is_wanted wanted_ids (header, seq) →
  extract_loop wanted_ids ((header, seq) :: records) out
  = extract_loop wanted_ids records out.
Proof.
  unfold is_wanted, primary_id. cbn [extract_loop fst].
  destruct (Py.split header) as [|id ids]; [by intros [? [=]]|]. cbn [head].
  intros _ Hid. by rewrite decide_False.
Qed.

Lemma extract_loop_no_id wanted_ids header seq records out :
  primary_id header = None →
  extract_loop wanted_ids ((header, seq) :: records) out
  = (Raise IndexError, out).
Proof.
  unfold primary_id. cbn [extract_loop].
  by destruct (Py.split header).
Qed.

(** When every header has a first word the loop ends normally, having
    written the wanted records in the order of the file. *)
Lemma extract_loop_ok wanted_ids records out :
  Forall (λ r, is_Some (primary_id r.1)) records →
  extract_loop wanted_ids records out
  = (Ok (), out +:+ Py.join "" (record_text <$> filter (is_wanted wanted_ids) records)).
Proof.
  intros Hall. revert out.
  induction Hall as [|[header seq] records Hid _ IH]; intros out.
  - by rewrite str_app_empty_r.
  - destruct (decide (is_wanted wanted_ids (header, seq))) as [Hw|Hw].
    + rewrite extract_loop_wanted, filter_cons_True by done.
      rewrite IH, fmap_cons, join_cons. by rewrite str_app_assoc.
    + rewrite extract_loop_unwanted, filter_cons_False by done. apply IH.
Qed.

(** The loop ends normally only if every header has a first word. *)
Lemma extract_loop_ok_inv wanted_ids records out out' :
  extract_loop wanted_ids records out = (Ok (), out') →
  Forall (λ r, is_Some (primary_id r.1)) records.
Proof.
  revert out. induction records as [|[header seq] records IH]; intros out Hrun.
  - constructor.
  - destruct (primary_id header) as [id|] eqn:Hid.
    + constructor; [by exists id|].
      destruct (decide (is_wanted wanted_ids (header, seq))) as [Hw|Hw].
      * rewrite extract_loop_wanted in Hrun by done. by eapply IH.
      * rewrite extract_loop_unwanted in Hrun; [by eapply IH| |done].
        by rewrite Hid.
    + by rewrite extract_loop_no_id in Hrun.
Qed.

(** The first header without a word stops the loop with an [IndexError]. *)
Lemma extract_loop_raise wanted_ids pre header seq post out :
  Forall (λ r, is_Some (primary_id r.1)) pre →
  primary_id header = None →
  (extract_loop wanted_ids (pre ++ (header, seq) :: post) out).1
  = Raise IndexError.
Proof.
  intros Hpre Hid. revert out.
  induction Hpre as [|[h s] pre Hh _ IH]; intros out.
  - by rewrite app_nil_l, extract_loop_no_id.
  - rewrite <- app_comm_cons.
    destruct (decide (is_wanted wanted_ids (h, s))) as [Hw|Hw].
    + by rewrite extract_loop_wanted.
    + by rewrite extract_loop_unwanted.
Qed.


Lemma flush_nil cur : Py.flush cur = [] ↔ cur = "".
Proof. by destruct cur. Qed.

Lemma split_go_nil cur s : Py.split_go cur s = [] ↔ cur = "" ∧ blank s.
Proof.
  revert cur. induction s as [|c s IH]; intros cur; cbn [Py.split_go blank].
  - rewrite flush_nil. tauto.
  - destruct (Py.isspace c) eqn:Hc.
    + split.
      * intros [Hcur Hs]%app_eq_nil. apply flush_nil in Hcur.
        apply IH in Hs. by destruct Hs.
      * intros (-> & _ & Hs). cbn [Py.flush app]. by apply IH.
    + split.
      * intros [Hcur _]%IH. by destruct cur.
      * by intros (_ & [] & _).
Qed.

(** [header.split()[0]] fails exactly on a header without a word. *)
Lemma primary_id_None header : primary_id header = None ↔ blank header.
Proof.
  unfold primary_id, Py.split. rewrite head_None, split_go_nil. tauto.
Qed.

(** C10. A wanted record with an empty sequence is written as its header
    line alone: the loop over the slices has no step. Such a record is what
    the reader yields for a header line that the next header, or the end of
    the file, follows at once. *)
Theorem extract_empty_body (wanted_ids : gset string) (header line out : string)
    (rest : list string) (records : list (string * string)) :
  (is_header line → at_record_end rest →
     fasta_iterator (line :: rest)
     = (Py.drop 1 (Py.rstrip_nl line), "") :: fasta_iterator rest) ∧
  (is_wanted wanted_ids (header, "") →
     extract_loop wanted_ids ((header, "") :: records) out
     = extract_loop wanted_ids records (out +:+ ">" +:+ header +:+ Py.nl)).
Proof.
  split.
  - intros Hline Hrest. unfold fasta_iterator at 1.
    rewrite fasta_loop_header by done. by rewrite fasta_loop_record_end.
  - intros Hw. by rewrite extract_loop_wanted.
Qed.

Lemma extract_empty_body_witness :
  fasta_iterator [">S1 x" +:+ Py.nl; ">S2"] = [("S1 x", ""); ("S2", "")] ∧
  extract_loop {["S1"]} [("S1 x", ""); ("S2", "")] ""
  = (Ok (), ">S1 x" +:+ Py.nl).
Proof.
  destruct (extract_empty_body {["S1"]} "S1 x" (">S1 x" +:+ Py.nl) ""
              [">S2"] [("S2", "")]) as [Hread Hwrite].
  split.
  - rewrite Hread; [reflexivity | vm_compute; exact I | vm_compute; exact I].
  - rewrite Hwrite; [vm_compute; reflexivity|].
    vm_compute. reflexivity.
Defined.





(** C5, at an input on which the code departs from it.  A record whose
    header line is the marker alone has no first word: [header.split()[0]]
    raises [IndexError], and the extraction stops there. *)
Theorem extract_sequences_empty_header :
  let content := ">" +:+ Py.nl +:+ "ACGT" +:+ Py.nl in
  let w := mkWorld {["in.faa" := content]} [] in
  fasta_iterator (Py.readlines content) = [("", "ACGT")] ∧
  (extract_sequences "in.faa" {["S1"]} "out.fasta" w).1 = Raise IndexError.
Proof. split; vm_compute; reflexivity. Qed.

(** The same happens for every header that is empty or white space only,
    wherever it stands in the file and whatever the wanted set is; a file
    whose headers all have a word is processed to the end. *)
Lemma extract_loop_outcome wanted_ids records out :
  (extract_loop wanted_ids records out).1 = Ok ()
  ↔ Forall (λ r, ¬ blank r.1) records.
Proof.
  assert (∀ r : string * string, is_Some (primary_id r.1) ↔ ¬ blank r.1) as Hiff.
  { intros r. rewrite <- primary_id_None, <- not_eq_None_Some. done. }
  split.
  - destruct (extract_loop _ _ _) as [o out'] eqn:Hrun. simpl. intros ->.
    apply extract_loop_ok_inv in Hrun.
    eapply Forall_impl; [exact Hrun|]. intros r. apply Hiff.
  - intros Hall. rewrite extract_loop_ok; [done|].
    eapply Forall_impl; [exact Hall|]. intros r. apply Hiff.
Qed.

(* ================================================================== *)
(** * Dropping duplicates *)
(* ================================================================== *)

Section DropDuplicates.

Context {A : Type} (key : A → string).
Implicit Types (rows : list A) (seen : gset string).

Lemma drop_duplicates_go_keys seen rows k :
  k ∈ key <$> drop_duplicates_go key seen rows ↔ k ∈ key <$> rows ∧ k ∉ seen.
Proof.
  revert seen. induction rows as [|r rows IH]; intros seen.
  - cbn. rewrite elem_of_nil. tauto.
  - cbn [drop_duplicates_go]. case_decide as Hseen.
    + rewrite IH, fmap_cons, elem_of_cons.
      split; [tauto|]. intros [[->|?] ?]; tauto.
    + rewrite !fmap_cons, !elem_of_cons, IH.
      rewrite not_elem_of_union, not_elem_of_singleton.
      destruct (decide (k = key r)) as [->|?]; tauto.
Qed.

Lemma drop_duplicates_go_NoDup seen rows :
  NoDup (key <$> drop_duplicates_go key seen rows).
Proof.
  revert seen. induction rows as [|r rows IH]; intros seen.
  - constructor.
  - cbn [drop_duplicates_go]. case_decide as Hseen; [apply IH|].
    rewrite fmap_cons. constructor; [|apply IH].
    rewrite drop_duplicates_go_keys, not_elem_of_union, not_elem_of_singleton.
    tauto.
Qed.

Lemma first_of_key_cons x rows r :
  first_of_key key (x :: rows) r
  ↔ r = x ∨ (key r ≠ key x ∧ first_of_key key rows r).
Proof.
  unfold first_of_key. split.
  - intros ([|y pre] & post & Heq & Hpre); simplify_eq/=; [by left|].
    right. apply not_elem_of_cons in Hpre as [Hne Hpre]. eauto.
  - intros [->|(Hne & pre & post & -> & Hpre)].
    + exists [], rows. split; [done|]. cbn. apply not_elem_of_nil.
    + exists (x :: pre), post. split; [done|].
      rewrite fmap_cons, not_elem_of_cons. done.
Qed.

Lemma first_of_key_nil r : ¬ first_of_key key [] r.
Proof. intros ([|??] & ? & ? & _); simplify_eq/=. Qed.

(** The rows kept from a selection by key are the first rows of the whole
    table with a selected key not seen before. *)
Lemma drop_duplicates_go_filter (sel : gset string) seen rows r :
  r ∈ drop_duplicates_go key seen (filter (λ x, key x ∈ sel) rows)
  ↔ key r ∈ sel ∧ (key r ∉ seen) ∧ first_of_key key rows r.
Proof.
  revert seen. induction rows as [|x rows IH]; intros seen.
  - cbn. rewrite elem_of_nil. pose proof (first_of_key_nil r). tauto.
  - rewrite first_of_key_cons.
    destruct (decide (key x ∈ sel)) as [Hx|Hx].
    + rewrite filter_cons_True by done. cbn [drop_duplicates_go].
      case_decide as Hseen.
      * rewrite IH. split.
        -- intros (Hsel & Hnew & Hfirst). repeat split; [done..|].
           right. split; [|done]. intros Heq. by rewrite Heq in Hnew.
        -- intros (Hsel & Hnew & [->|[_ Hfirst]]); [done|tauto].
      * rewrite elem_of_cons, IH.
        rewrite not_elem_of_union, not_elem_of_singleton.
        split.
        -- intros [->|?]; tauto.
        -- intros (Hsel & Hnew & [->|[Hne Hfirst]]); [by left|]. tauto.
    + rewrite filter_cons_False by done. rewrite IH. split.
      * intros (Hsel & Hnew & Hfirst). repeat split; [done..|].
        right. split; [|done]. intros Heq. by rewrite Heq in Hsel.
      * intros (Hsel & Hnew & [->|[_ Hfirst]]); [done|tauto].
Qed.

End DropDuplicates.

Lemma unique_elem_of ids s : s ∈ unique ids ↔ s ∈ ids.
Proof.
  pose proof (drop_duplicates_go_keys id ∅ ids s) as H.
  rewrite !list_fmap_id in H. unfold unique, drop_duplicates.
  rewrite H. split; [tauto|]. intros Hs. split; [done|]. apply not_elem_of_empty.
Qed.

Lemma unique_NoDup ids : NoDup (unique ids).
Proof.
  pose proof (drop_duplicates_go_NoDup id ∅ ids) as H.
  by rewrite list_fmap_id in H.
Qed.

(* ================================================================== *)
(** * The list builder *)
(* ================================================================== *)

(** A comparison with the missing value is false, on either side. *)
Lemma SFleb_not_nan x y : SFleb x y = true → isna x = false ∧ isna y = false.
Proof. by destruct x, y. Qed.

Lemma path_join_inj dir name name' :
  path_join dir name = path_join dir name' → name = name'.
Proof.
  unfold path_join. intros H%(inj (String.app dir)).
  by apply (inj (String.app "/")) in H.
Qed.

Lemma list_files_ne outdir : list1_file outdir ≠ list2_file outdir.
Proof. by intros H%path_join_inj. Qed.

Lemma make_lists_run df outdir w :
  make_lists df outdir w
  = (Ok (list_to_set (list1_of df), list_to_set (list2_of df)),
     mkWorld
       (<[list2_file outdir := Py.join Py.nl (list2_of df) +:+ Py.nl]>
          (<[list1_file outdir := Py.join Py.nl (list1_of df) +:+ Py.nl]>
             (files w)))
       (stdout w)).
Proof. reflexivity. Qed.

Lemma list1_of_elem_of (df : DataFrame) s :
  s ∈ list1_of df ↔
  ∃ r, r ∈ df ∧ subject_ID r = s ∧
       SFleb IDENTITY_THRESHOLD (pct_identity r) = true.
Proof.
  unfold list1_of. rewrite unique_elem_of, list_elem_of_fmap.
  split.
  - intros (r & -> & [Hr Hin]%list_elem_of_filter).
    exists r. by apply Is_true_true in Hr.
  - intros (r & Hin & <- & Hr). exists r. split; [done|].
    apply list_elem_of_filter. by apply Is_true_true in Hr.
Qed.

Lemma list2_of_elem_of (df : DataFrame) s :
  s ∈ list2_of df ↔
  ∃ r, r ∈ df ∧ subject_ID r = s ∧
       SFleb (evalue r) EVALUE_THRESHOLD = true.
Proof.
  unfold list2_of. rewrite unique_elem_of, list_elem_of_fmap.
  split.
  - intros (r & -> & [Hr Hin]%list_elem_of_filter).
    exists r. by apply Is_true_true in Hr.
  - intros (r & Hin & <- & Hr). exists r. split; [done|].
    apply list_elem_of_filter. by apply Is_true_true in Hr.
Qed.

Section ListBuilder.

Variable parse_float : string → option spec_float.

(** What the coercion makes of a cell, said without it. *)
Lemma cell_value_to_numeric c x :
  cell_value parse_float c x
  ↔ to_numeric parse_float c = x ∧ isna x = false.
Proof.
  split.
  - intros [y Hy|t y Ht Hy]; cbn; [done|]. by rewrite Ht.
  - intros [<- Hna]. destruct c as [y|t]; cbn in *.
    + by constructor.
    + destruct (parse_float t) as [y|] eqn:Ht; cbn in *; [|done].
      by constructor.
Qed.

Lemma cell_missing_to_numeric c :
  cell_missing parse_float c ↔ isna (to_numeric parse_float c) = true.
Proof.
  unfold cell_missing. split.
  - intros Hmiss. destruct (isna (to_numeric parse_float c)) eqn:Hna; [done|].
    destruct (Hmiss (to_numeric parse_float c)).
    by apply cell_value_to_numeric.
  - intros Hna x [Heq Hx]%cell_value_to_numeric. congruence.
Qed.

(** C1, as the code has it. Whatever the table read, list A is written
    without repetition and holds exactly the subject identifiers of the rows
    whose identity cell holds a number that is at least 35.0; list B
    likewise for the e-value cells that hold a number at most 1e-7. The two
    lists are returned as sets. Each list looks at its own column only: a
    subject all of whose rows have a missing identity is not in list A, one
    all of whose rows have a missing e-value is not in list B, and a missing
    value in one column does not keep a row out of the other list. *)
Theorem make_lists_exact (raw : list RawRow) (outdir s : string) (w : World) :
  let df : DataFrame := coerce parse_float <$> raw in
  let run := make_lists df outdir w in
  let list1 := list1_of df in
  let list2 := list2_of df in
  run.1 = Ok (list_to_set list1, list_to_set list2) ∧
  files run.2 !! list1_file outdir = Some (Py.join Py.nl list1 +:+ Py.nl) ∧
  files run.2 !! list2_file outdir = Some (Py.join Py.nl list2 +:+ Py.nl) ∧
  NoDup list1 ∧ NoDup list2 ∧
  (s ∈ list1 ↔
     ∃ r x, r ∈ raw ∧ subject_ID r = s ∧
            cell_value parse_float (pct_identity r) x ∧
            SFleb IDENTITY_THRESHOLD x = true) ∧
  (s ∈ list2 ↔
     ∃ r x, r ∈ raw ∧ subject_ID r = s ∧
            cell_value parse_float (evalue r) x ∧
            SFleb x EVALUE_THRESHOLD = true) ∧
  ((∀ r, r ∈ raw → subject_ID r = s →
      cell_missing parse_float (pct_identity r)) → s ∉ list1) ∧
  ((∀ r, r ∈ raw → subject_ID r = s →
      cell_missing parse_float (evalue r)) → s ∉ list2).
Proof.
  intros df run list1 list2. unfold run. rewrite make_lists_run.
  cbn [fst snd files]. split; [done|].
  split; [by rewrite lookup_insert_ne, lookup_insert_eq
            by (symmetry; apply list_files_ne)|].
  split; [by rewrite lookup_insert_eq|].
  split; [apply unique_NoDup|]. split; [apply unique_NoDup|].
  assert (s ∈ list1 ↔
          ∃ r x, r ∈ raw ∧ subject_ID r = s ∧
                 cell_value parse_float (pct_identity r) x ∧
                 SFleb IDENTITY_THRESHOLD x = true) as H1.
  { unfold list1. rewrite list1_of_elem_of. split.
    - intros (r' & (r & -> & Hr)%list_elem_of_fmap & <- & Hge).
      exists r, (to_numeric parse_float (pct_identity r)). cbn in Hge.
      destruct (SFleb_not_nan _ _ Hge) as [_ Hna].
      repeat split; [done| |done]. by apply cell_value_to_numeric.
    - intros (r & x & Hr & <- & [Hx _]%cell_value_to_numeric & Hge).
      exists (coerce parse_float r). split; [|split; [done|]].
      + apply list_elem_of_fmap. eauto.
      + cbn. by rewrite Hx. }
  assert (s ∈ list2 ↔
          ∃ r x, r ∈ raw ∧ subject_ID r = s ∧
                 cell_value parse_float (evalue r) x ∧
                 SFleb x EVALUE_THRESHOLD = true) as H2.
  { unfold list2. rewrite list2_of_elem_of. split.
    - intros (r' & (r & -> & Hr)%list_elem_of_fmap & <- & Hle).
      exists r, (to_numeric parse_float (evalue r)). cbn in Hle.
      destruct (SFleb_not_nan _ _ Hle) as [Hna _].
      repeat split; [done| |done]. by apply cell_value_to_numeric.
    - intros (r & x & Hr & <- & [Hx _]%cell_value_to_numeric & Hle).
      exists (coerce parse_float r). split; [|split; [done|]].
      + apply list_elem_of_fmap. eauto.
      + cbn. by rewrite Hx. }
  split; [exact H1|]. split; [exact H2|]. split.
  - intros Hmiss (r & x & Hr & Hs & Hx & _)%H1. by apply (Hmiss r Hr Hs x).
  - intros Hmiss (r & x & Hr & Hs & Hx & _)%H2. by apply (Hmiss r Hr Hs x).
Qed.

End ListBuilder.

Lemma make_lists_exact_witness :
  let r := mkRecord "Q1" "S1" (Text "abc") (Text "") (Text "") (Text "")
             (Text "") (Text "") (Text "") (Text "") (Number f1e_9) (Text "") in
  ("S1" ∉ list1_of (coerce (λ _, None) <$> [r])) ∧
  "S1" ∈ list2_of (coerce (λ _, None) <$> [r]).
Proof.
  intros r.
  destruct (make_lists_exact (λ _, None) [r] "results" "S1" (mkWorld ∅ []))
    as (_ & _ & _ & _ & _ & _ & Hb & Ha & _).
  split.
  - apply Ha. intros r' [->|[]%elem_of_nil]%elem_of_cons _ x Hx.
    inversion Hx; discriminate.
  - apply Hb. exists r, f1e_9. split; [by left|]. split; [done|].
    split; [by constructor | reflexivity].
Defined.

(** C1, as stated, fails on a row whose identity does not read as a number
    and whose e-value passes: its coerced identity is missing, and it is
    not kept out of both lists, for its subject is in list B. *)
Lemma make_lists_missing_identity_listed :
  let r := mkRecord "Q1" "S1" (Text "abc") (Text "") (Text "") (Text "")
             (Text "") (Text "") (Text "") (Text "") (Number f1e_9) (Text "") in
  let df : DataFrame := coerce (λ _, None) <$> [r] in
  cell_missing (λ _, None) (pct_identity r) ∧
  isna (pct_identity (coerce (λ _, None) r)) = true ∧
  "S1" ∈ list2_of df ∧
  (make_lists df "results" (mkWorld ∅ [])).1
  = Ok (∅, {["S1"]}).
Proof.
  intros r df. split; [|split; [|split]].
  - intros x Hx. inversion Hx; discriminate.
  - reflexivity.
  - apply list2_of_elem_of. exists (coerce (λ _, None) r).
    split; [by left|]. by split.
  - vm_compute. reflexivity.
Qed.

(** The scenario of the specification: identities 40, 30, 40 and e-values
    1e-9, 1e-9, 1e-5. *)
Example make_lists_scenario :
  let df := [hit "Q1" "S1" f40 f1e_9; hit "Q2" "S2" f30 f1e_9;
             hit "Q3" "S3" f40 f1e_5] in
  list1_of df = ["S1"; "S3"] ∧ list2_of df = ["S1"; "S2"] ∧
  elements (list_to_set (list1_of df) ∩ list_to_set (list2_of df) : gset string)
  = ["S1"].
Proof. repeat split; vm_compute; reflexivity. Qed.

(** The thresholds are inclusive. *)
Example thresholds_inclusive :
  SFleb IDENTITY_THRESHOLD IDENTITY_THRESHOLD = true ∧
  SFleb EVALUE_THRESHOLD EVALUE_THRESHOLD = true.
Proof. split; reflexivity. Qed.

(** C9. A list without identifiers is still written, as a file of one line
    feed. *)
Theorem make_lists_empty_list (df : DataFrame) (outdir : string) (w : World) :
  (list1_of df = [] →
     files (make_lists df outdir w).2 !! list1_file outdir = Some Py.nl) ∧
  (list2_of df = [] →
     files (make_lists df outdir w).2 !! list2_file outdir = Some Py.nl).
Proof.
  rewrite make_lists_run. cbn [snd files]. split; intros ->.
  - rewrite lookup_insert_ne, lookup_insert_eq
      by (symmetry; apply list_files_ne). done.
  - by rewrite lookup_insert_eq.
Qed.

Lemma make_lists_empty_list_witness :
  let df := [hit "Q1" "S1" S754_nan f1e_5; hit "Q2" "S2" f30 S754_nan] in
  let w := mkWorld ∅ [] in
  files (make_lists df "results" w).2 !! list1_file "results" = Some Py.nl ∧
  files (make_lists df "results" w).2 !! list2_file "results" = Some Py.nl ∧
  Py.len Py.nl = 1.
Proof.
  intros df w. destruct (make_lists_empty_list df "results" w) as [H1 H2].
  split; [apply H1; reflexivity|]. split; [apply H2; reflexivity | reflexivity].
Defined.

(* ================================================================== *)
(** * The script *)
(* ================================================================== *)

Lemma bind_ok {A B} (m : M A) (f : A → M B) w a w' :
  m w = (Ok a, w') → (m ≫= f) w = f a w'.
Proof. unfold mbind, M_bind. by intros ->. Qed.

Lemma bind_raise {A B} (m : M A) (f : A → M B) w e w' :
  m w = (Raise e, w') → (m ≫= f) w = (Raise e, w').
Proof. unfold mbind, M_bind. by intros ->. Qed.

Lemma print_run line w :
  print line w = (Ok (), mkWorld (files w) (stdout w ++ [line])).
Proof. reflexivity. Qed.

(** The comparison only prints: five lines, the last of which is one of the
    three verdicts. *)
Lemma compare_lists_run list1 list2 w :
  ∃ lines, length lines = 5 ∧
    compare_lists list1 list2 w
    = (Ok (), mkWorld (files w) (stdout w ++ lines)).
Proof.
  unfold compare_lists.
  repeat (erewrite bind_ok; [|apply print_run]). cbn [files stdout].
  repeat case_decide; rewrite print_run; cbn [files stdout];
    rewrite <- !app_assoc; eexists; (split; [|reflexivity]); done.
Qed.

Section Main.

Variable parse_float : string → option spec_float.
Variable read_csv : option string → outcome (list RawRow).
Variable sort_values : list Row → list Row.
Variable savefig : list Row → string.

Lemma load_blast_table_run blast w raw :
  read_csv (files w !! blast) = Ok raw →
  load_blast_table parse_float read_csv blast w
  = (Ok (coerce parse_float <$> raw), w).
Proof. unfold load_blast_table. by intros ->. Qed.

(** The loader adds no failure of its own to those of the reader. *)
Lemma load_blast_table_raise blast w e :
  read_csv (files w !! blast) = Raise e ↔
  load_blast_table parse_float read_csv blast w = (Raise e, w).
Proof.
  unfold load_blast_table. destruct (read_csv _); split; congruence.
Qed.

(** C7. When no identifier is in both lists, the script prints the notice
    and leaves through [sys.exit()], with status 0, before the heat-map and
    the extraction: of the files, only the two lists are written, so the
    image and the sequence file are as they were before the run. *)
Theorem main_no_shared_hits (blast fasta outdir : string) (w : World)
    (raw : list RawRow) :
  read_csv (files w !! blast) = Ok raw →
  let df : DataFrame := coerce parse_float <$> raw in
  (list_to_set (list1_of df) ∩ list_to_set (list2_of df) : gset string) = ∅ →
  ∃ w', main parse_float read_csv sort_values savefig blast fasta outdir w
        = (Raise (SystemExit None), w') ∧
    exit_status (A := unit) (Raise (SystemExit None)) = 0%Z ∧
    last (stdout w') = Some "No shared hits – nothing more to do." ∧
    files w'
    = <[list2_file outdir := Py.join Py.nl (list2_of df) +:+ Py.nl]>
        (<[list1_file outdir := Py.join Py.nl (list1_of df) +:+ Py.nl]>
           (files w)) ∧
    files w' !! path_join outdir "shared_hits_heatmap.png"
    = files w !! path_join outdir "shared_hits_heatmap.png" ∧
    files w' !! path_join outdir "shared_hits_sequences.fasta"
    = files w !! path_join outdir "shared_hits_sequences.fasta".
Proof.
  intros Hread df Hempty. unfold main.
  erewrite bind_ok; [|by apply load_blast_table_run].
  erewrite bind_ok; [|apply make_lists_run]. fold df.
  destruct (compare_lists_run (list_to_set (list1_of df))
              (list_to_set (list2_of df))
              (mkWorld
                 (<[list2_file outdir := Py.join Py.nl (list2_of df) +:+ Py.nl]>
                    (<[list1_file outdir := Py.join Py.nl (list1_of df) +:+ Py.nl]>
                       (files w)))
                 (stdout w))) as (lines & _ & Hcmp).
  erewrite bind_ok; [|exact Hcmp].
  rewrite decide_True by done.
  erewrite bind_raise; [|erewrite bind_ok; [|apply print_run]; reflexivity].
  eexists. split; [reflexivity|]. cbn [files stdout].
  split; [done|]. split; [apply last_snoc|]. split; [done|].
  unfold list1_file, list2_file.
  split; rewrite !lookup_insert_ne; try done; by intros H%path_join_inj.
Qed.

End Main.

Lemma main_no_shared_hits_witness :
  let raw := [mkRecord "Q1" "S1" (Number f40) (Text "") (Text "") (Text "")
                (Text "") (Text "") (Text "") (Text "") (Text "n/a") (Text "")] in
  let w := mkWorld {["hits.txt" := ""; "proteins.faa" := ">S1"]} [] in
  let run := main (λ _, None) (λ _, Ok raw) (λ rows, rows) (λ _, "png")
               "hits.txt" "proteins.faa" "results" w in
  exit_status run.1 = 0%Z ∧
  files run.2 !! path_join "results" "shared_hits_heatmap.png" = None ∧
  files run.2 !! path_join "results" "shared_hits_sequences.fasta" = None ∧
  files run.2 !! list1_file "results" = Some ("S1" +:+ Py.nl).
Proof.
  intros raw w run.
  destruct (main_no_shared_hits (λ _, None) (λ _, Ok raw) (λ rows, rows)
              (λ _, "png") "hits.txt" "proteins.faa" "results" w raw)
    as (w' & Hrun & Hstatus & _ & Hfiles & Hpng & Hfasta).
  - reflexivity.
  - vm_compute. reflexivity.
  - unfold run. rewrite Hrun. cbn [fst snd].
    split; [exact Hstatus|]. split; [by rewrite Hpng|]. split; [by rewrite Hfasta|].
    rewrite Hfiles. vm_compute. reflexivity.
Defined.

(* ================================================================== *)
(** * The rows of the heat-map *)
(* ================================================================== *)

(** Two floats that are not missing compare one way or the other. *)
Lemma SFleb_total x y :
  isna x = false → isna y = false → SFleb x y = true ∨ SFleb y x = true.
Proof.
  intros Hx Hy. unfold SFleb.
  destruct x as [sx|sx| |sx mx ex], y as [sy|sy| |sy my ey]; try done;
    cbn [SFcompare]; try (destruct sx, sy; cbn; tauto).
  rewrite (Z.compare_antisym ex ey).
  destruct sx, sy; try tauto; destruct (ex ?= ey)%Z; cbn; try tauto.
  all: assert (Pos.compare_cont Eq my mx = CompOpp (Pos.compare_cont Eq mx my))
    as -> by (by rewrite Pos.compare_cont_antisym).
  all: destruct (Pos.compare_cont Eq mx my); cbn; tauto.
Qed.

Global Instance identity_ge_total : Total identity_ge.
Proof.
  intros a b. unfold identity_ge, identity_geb.
  destruct (isna (pct_identity a)) eqn:Ha; [right; by destruct (isna (pct_identity b))|].
  destruct (isna (pct_identity b)) eqn:Hb; [by left|].
  destruct (SFleb_total _ _ Ha Hb) as [->| ->]; cbn; tauto.
Qed.

Lemma precedes_nil {A} (r1 r2 : A) : ¬ precedes [] r1 r2.
Proof. intros ([|??] & ? & ? & ?); simplify_eq/=. Qed.

Lemma precedes_cons {A} (x : A) rows r1 r2 :
  precedes (x :: rows) r1 r2 → (x = r1 ∧ r2 ∈ rows) ∨ precedes rows r1 r2.
Proof.
  intros ([|y l1] & l2 & l3 & Heq); simplify_eq/=.
  - left. split; [done|]. apply elem_of_app. right. apply elem_of_cons. by left.
  - right. by exists l1, l2, l3.
Qed.

Lemma merge_sort_values_sorts : sorts_descending merge_sort_values.
Proof.
  intros rows. unfold merge_sort_values. split.
  - apply merge_sort_Permutation.
  - apply (Sorted_merge_sort identity_ge).
Qed.

Lemma heatmap_rows_Permutation sort_values df shared_ids :
  sorts_descending sort_values →
  heatmap_rows sort_values df shared_ids
  ≡ₚ drop_duplicates subject_ID (filter (λ r, subject_ID r ∈ shared_ids) df).
Proof. intros Hsort. unfold heatmap_rows. apply Hsort. Qed.

(** C4, as the code has it. Of the rows whose subject identifier is shared,
    the first in table order is kept for each identifier, so the selection
    has one row for every shared identifier of the table and no two rows
    with the same identifier; the kept rows are then put in descending
    order of identity, rows with a missing identity last. The sort is the
    library's default one: the order among rows of equal identity is the
    sort's own. *)
Theorem heatmap_rows_selection (sort_values : list Row → list Row)
    (df : DataFrame) (shared_ids : gset string) (r : Row) (id : string) :
  sorts_descending sort_values →
  let rows := heatmap_rows sort_values df shared_ids in
  NoDup (subject_ID <$> rows) ∧
  (r ∈ rows ↔ subject_ID r ∈ shared_ids ∧ first_of_key subject_ID df r) ∧
  (id ∈ subject_ID <$> rows ↔ id ∈ shared_ids ∧ id ∈ subject_ID <$> df) ∧
  Sorted identity_ge rows.
Proof.
  intros Hsort rows.
  pose proof (heatmap_rows_Permutation _ df shared_ids Hsort) as Hperm.
  fold rows in Hperm. split; [|split; [|split]].
  - rewrite Hperm. apply drop_duplicates_go_NoDup.
  - rewrite Hperm. unfold drop_duplicates.
    rewrite drop_duplicates_go_filter. split; [tauto|].
    intros [? ?]. repeat split; [done| |done]. apply not_elem_of_empty.
  - rewrite Hperm. unfold drop_duplicates.
    rewrite drop_duplicates_go_keys, !list_elem_of_fmap. split.
    + intros [(x & -> & [Hx Hin]%list_elem_of_filter) _]. eauto.
    + intros (Hid & x & -> & Hin). split; [|apply not_elem_of_empty].
      exists x. split; [done|]. by apply list_elem_of_filter.
  - apply Hsort.
Qed.

Lemma heatmap_rows_selection_witness :
  let df := [hit "Q1" "S1" f40 f1e_9; hit "Q2" "S2" f30 f1e_9;
             hit "Q3" "S1" f50 f1e_9; hit "Q4" "S3" f50 f1e_9] in
  heatmap_rows merge_sort_values df {["S1"; "S3"]}
  = [hit "Q4" "S3" f50 f1e_9; hit "Q1" "S1" f40 f1e_9] ∧
  Sorted identity_ge (heatmap_rows merge_sort_values df {["S1"; "S3"]}).
Proof.
  intros df.
  destruct (heatmap_rows_selection merge_sort_values df {["S1"; "S3"]}
              (hit "Q1" "S1" f40 f1e_9) "S1" merge_sort_values_sorts)
    as (_ & _ & _ & Hsorted).
  split; [vm_compute; reflexivity | exact Hsorted].
Defined.

Lemma insert_front_Permutation x placed : insert_front x placed ≡ₚ x :: placed.
Proof.
  induction placed as [|y placed IH]; [done|]. cbn [insert_front].
  case_decide; [done|]. rewrite IH. apply Permutation_swap.
Qed.

Lemma insert_front_HdRel a x placed :
  identity_ge a x → HdRel identity_ge a placed →
  HdRel identity_ge a (insert_front x placed).
Proof.
  intros Hax Hhd. destruct placed as [|y placed]; [by constructor|].
  cbn [insert_front]. case_decide; constructor; [done|].
  by inversion Hhd.
Qed.

Lemma insert_front_Sorted x placed :
  Sorted identity_ge placed → Sorted identity_ge (insert_front x placed).
Proof.
  induction 1 as [|y placed Hsorted IH Hhd]; [by repeat constructor|].
  cbn [insert_front]. case_decide as Hxy.
  - constructor; [by constructor|by constructor].
  - constructor; [done|]. apply insert_front_HdRel; [|done].
    by destruct (total identity_ge x y).
Qed.

Lemma front_sort_values_sorts : sorts_descending front_sort_values.
Proof.
  intros rows. unfold front_sort_values.
  assert (∀ placed, Sorted identity_ge placed →
            foldl (λ placed x, insert_front x placed) placed rows
            ≡ₚ rows ++ placed ∧
            Sorted identity_ge
              (foldl (λ placed x, insert_front x placed) placed rows)) as Hgo.
  { induction rows as [|x rows IH]; intros placed Hplaced; [done|].
    cbn [foldl]. destruct (IH (insert_front x placed)) as [Hperm Hsorted].
    { by apply insert_front_Sorted. }
    split; [|done]. rewrite Hperm, insert_front_Permutation.
    by rewrite <- Permutation_middle. }
  destruct (Hgo []) as [Hperm Hsorted]; [constructor|].
  split; [|done]. by rewrite Hperm, app_nil_r.
Qed.

(** Closes a goal from [H : precedes rows r1 r2] when [r1] does not stand
    before [r2] in the explicit list [rows]. *)
Ltac refute_precedes H :=
  let Heq := fresh "Heq" in
  let Hin := fresh "Hin" in
  repeat (apply precedes_cons in H as [[Heq Hin]|H];
          [ first
              [ discriminate Heq
              | exfalso; clear -Hin;
                repeat (apply elem_of_cons in Hin as [Hin|Hin];
                        [discriminate Hin|]);
                by apply elem_of_nil in Hin ]
          | ]);
  by apply precedes_nil in H.

(** On the table of identities 40, 40, 50, 50 only one arrangement is in
    descending order and keeps the rows of equal identity in table order. *)
Lemma ties_table_stable_order rows :
  rows ≡ₚ ties_table → Sorted identity_ge rows →
  keeps_tie_order ties_table rows →
  rows = [hit "Q3" "S3" f50 f1e_9; hit "Q4" "S4" f50 f1e_9;
          hit "Q1" "S1" f40 f1e_9; hit "Q2" "S2" f40 f1e_9].
Proof.
  intros Hperm Hsorted Hkeep.
  assert (precedes rows (hit "Q1" "S1" f40 f1e_9) (hit "Q2" "S2" f40 f1e_9))
    as H12.
  { apply Hkeep; [done|].
    by exists [], [], [hit "Q3" "S3" f50 f1e_9; hit "Q4" "S4" f50 f1e_9]. }
  assert (precedes rows (hit "Q3" "S3" f50 f1e_9) (hit "Q4" "S4" f50 f1e_9))
    as H34.
  { apply Hkeep; [done|].
    by exists [hit "Q1" "S1" f40 f1e_9; hit "Q2" "S2" f40 f1e_9], [], []. }
  apply (bool_decide_pack _) in Hsorted.
  symmetry in Hperm. apply permutations_Permutation in Hperm.
  clear Hkeep. unfold ties_table in Hperm. cbn [permutations] in Hperm.
  cbn in Hperm.
  repeat (apply elem_of_cons in Hperm as [->|Hperm]);
    [..|by apply elem_of_nil in Hperm];
    first [ reflexivity
          | exfalso; vm_compute in Hsorted; exact Hsorted
          | exfalso; refute_precedes H12
          | exfalso; refute_precedes H34 ].
Qed.

(** C4, as stated, fails on the table of identities 40, 40, 50, 50 whenever
    the sort returns anything but S3, S4, S1, S2: every other arrangement in
    descending order has two rows of equal identity exchanged. The code does
    not ask the library for a stable sort, and a sort that keeps the promise
    of [sort_values] may return the rows as S4, S3, S2, S1. *)
Lemma heatmap_rows_ties_reordered :
  let shared_ids : gset string := {["S1"; "S2"; "S3"; "S4"]} in
  let kept := drop_duplicates subject_ID
                (filter (λ r, subject_ID r ∈ shared_ids) ties_table) in
  kept = ties_table ∧
  (∀ rows, rows ≡ₚ kept → Sorted identity_ge rows →
     rows ≠ [hit "Q3" "S3" f50 f1e_9; hit "Q4" "S4" f50 f1e_9;
             hit "Q1" "S1" f40 f1e_9; hit "Q2" "S2" f40 f1e_9] →
     ¬ keeps_tie_order kept rows) ∧
  sorts_descending front_sort_values ∧
  heatmap_rows front_sort_values ties_table shared_ids
  = [hit "Q4" "S4" f50 f1e_9; hit "Q3" "S3" f50 f1e_9;
     hit "Q2" "S2" f40 f1e_9; hit "Q1" "S1" f40 f1e_9] ∧
  ¬ keeps_tie_order kept (heatmap_rows front_sort_values ties_table shared_ids).
Proof.
  intros shared_ids kept.
  assert (kept = ties_table) as Hkept by (vm_compute; reflexivity).
  assert (heatmap_rows front_sort_values ties_table shared_ids
          = [hit "Q4" "S4" f50 f1e_9; hit "Q3" "S3" f50 f1e_9;
             hit "Q2" "S2" f40 f1e_9; hit "Q1" "S1" f40 f1e_9]) as Hrows
    by (vm_compute; reflexivity).
  assert (∀ rows, rows ≡ₚ kept → Sorted identity_ge rows →
            rows ≠ [hit "Q3" "S3" f50 f1e_9; hit "Q4" "S4" f50 f1e_9;
                    hit "Q1" "S1" f40 f1e_9; hit "Q2" "S2" f40 f1e_9] →
            ¬ keeps_tie_order kept rows) as Hall.
  { rewrite Hkept. intros rows Hperm Hsorted Hne Hkeep.
    by apply Hne, ties_table_stable_order. }
  split; [done|]. split; [exact Hall|].
  split; [apply front_sort_values_sorts|]. split; [exact Hrows|].
  apply Hall.
  - rewrite Hkept. apply front_sort_values_sorts.
  - apply front_sort_values_sorts.
  - rewrite Hrows. discriminate.
Qed.

(* ================================================================== *)
(** * The lines of a file *)
(* ================================================================== *)

(** The content of a file is taken as the text mode hands it over, line
    ends already translated to line feeds. *)

Lemma no_lf_app s t : no_lf (s +:+ t) ↔ no_lf s ∧ no_lf t.
Proof.
  induction s as [|c s IH]; [cbn; tauto|].
  rewrite str_app_cons. cbn [no_lf]. tauto.
Qed.

Lemma no_lf_drop n s : no_lf s → no_lf (Py.drop n s).
Proof.
  revert s. induction n as [|n IH]; intros [|c s]; try done.
  cbn [Py.drop no_lf]. intros [_ Hs]. by apply IH.
Qed.

Lemma no_lf_join ls : Forall no_lf ls → no_lf (Py.join "" ls).
Proof.
  induction 1 as [|l ls Hl _ IH]; [done|].
  rewrite join_cons. by apply no_lf_app.
Qed.

Lemma rstrip_no_lf s : no_lf s → Py.rstrip_nl s = s.
Proof.
  induction s as [|c s IH]; [done|]. cbn [no_lf Py.rstrip_nl].
  intros [Hc Hs]. rewrite IH by done.
  destruct s; [by rewrite decide_False|done].
Qed.

Lemma rstrip_nl_only : Py.rstrip_nl Py.nl = "".
Proof. reflexivity. Qed.

(** The line feed that ends a line is stripped, and nothing else. *)
Lemma rstrip_with_nl s : no_lf s → Py.rstrip_nl (with_nl s) = s.
Proof.
  unfold with_nl.
  induction s as [|c s IH]; [done|]. cbn [no_lf].
  intros [Hc Hs]. rewrite str_app_cons. cbn [Py.rstrip_nl].
  rewrite IH by done. destruct s; [by rewrite decide_False|done].
Qed.

Lemma rstrip_file_line line : file_line line → no_lf (Py.rstrip_nl line).
Proof.
  intros (body & Hbody & [->| [-> _]]).
  - fold (with_nl body). by rewrite rstrip_with_nl.
  - by rewrite rstrip_no_lf.
Qed.

Lemma readlines_cons_LF rest :
  Py.readlines (String Py.LF rest) = Py.nl :: Py.readlines rest.
Proof. cbn [Py.readlines]. by rewrite decide_True. Qed.

Lemma readlines_cons_other c rest :
  c ≠ Py.LF →
  Py.readlines (String c rest)
  = match Py.readlines rest with
    | [] => [String c ""]
    | l :: ls => String c l :: ls
    end.
Proof. intros Hc. cbn [Py.readlines]. by rewrite decide_False. Qed.

Lemma readlines_file_lines content : Forall file_line (Py.readlines content).
Proof.
  induction content as [|c rest IH]; [constructor|].
  destruct (decide (c = Py.LF)) as [->|Hc].
  - rewrite readlines_cons_LF. constructor; [|done].
    exists "". split; [done|]. by left.
  - rewrite readlines_cons_other by done.
    destruct (Py.readlines rest) as [|l ls].
    + constructor; [|done]. exists (String c ""). split; [done|]. by right.
    + apply Forall_cons in IH as [(body & Hbody & Hl) Hls].
      constructor; [|done]. exists (String c body). split; [done|].
      destruct Hl as [->|[-> _]]; [by left|by right].
Qed.

(* ================================================================== *)
(** * More on the streaming reader *)
(* ================================================================== *)

Lemma emit_no_lf header seq_lines :
  from_option no_lf True header → Forall no_lf seq_lines →
  Forall (λ r, no_lf r.1 ∧ no_lf r.2) (emit header seq_lines).
Proof.
  intros Hh Hs. destruct header as [h|]; [|constructor].
  constructor; [|constructor]. split; [done|]. by apply no_lf_join.
Qed.

Lemma fasta_loop_no_lf fh header seq_lines :
  Forall file_line fh →
  from_option no_lf True header → Forall no_lf seq_lines →
  Forall (λ r, no_lf r.1 ∧ no_lf r.2) (fasta_loop fh header seq_lines).
Proof.
  intros Hfh. revert header seq_lines.
  induction Hfh as [|l fh Hl _ IH]; intros header seq_lines Hh Hs.
  - by apply emit_no_lf.
  - apply rstrip_file_line in Hl.
    destruct (decide (is_header l)) as [Hhd|Hhd].
    + rewrite fasta_loop_header by done. apply Forall_app.
      split; [by apply emit_no_lf|]. apply IH; [|constructor].
      by apply no_lf_drop.
    + rewrite fasta_loop_body by done. apply IH; [done|].
      apply Forall_app. split; [done|]. by constructor.
Qed.

Lemma fasta_records_no_lf content :
  Forall (λ r, no_lf r.1 ∧ no_lf r.2) (fasta_iterator (Py.readlines content)).
Proof.
  apply fasta_loop_no_lf; [apply readlines_file_lines|done|constructor].
Qed.

(** X2. The records read from a file have no line feed left in them,
    neither in the header nor in the sequence. *)
Theorem fasta_iterator_no_lf (content : string) :
  Forall (λ r, no_lf r.1 ∧ no_lf r.2) (fasta_iterator (Py.readlines content)).
Proof. apply fasta_records_no_lf. Qed.

Lemma fasta_loop_app fh1 fh2 header seq_lines :
  at_record_end fh2 →
  fasta_loop (fh1 ++ fh2) header seq_lines
  = fasta_loop fh1 header seq_lines ++ fasta_iterator fh2.
Proof.
  intros Hend. revert header seq_lines.
  induction fh1 as [|l fh1 IH]; intros header seq_lines.
  - rewrite app_nil_l. destruct fh2 as [|l fh2]; [by rewrite app_nil_r|].
    cbn [at_record_end] in Hend. unfold fasta_iterator.
    by rewrite !fasta_loop_header.
  - rewrite <- app_comm_cons.
    destruct (decide (is_header l)) as [Hl|Hl].
    + rewrite !fasta_loop_header by done. by rewrite IH, app_assoc.
    + rewrite !fasta_loop_body by done. apply IH.
Qed.

(** X3. Reading one file after another, the second beginning with a header
    line (or empty), gives the records of the first followed by the records
    of the second. *)
Theorem fasta_iterator_app (fh1 fh2 : list string) :
  at_record_end fh2 →
  fasta_iterator (fh1 ++ fh2) = fasta_iterator fh1 ++ fasta_iterator fh2.
Proof. intros Hend. by apply fasta_loop_app. Qed.

Lemma fasta_iterator_app_witness :
  fasta_iterator ([with_nl ">A"; with_nl "AC"] ++ [with_nl ">B"; "GT"])
  = [("A", "AC"); ("B", "GT")].
Proof.
  rewrite fasta_iterator_app; [reflexivity | vm_compute; exact I].
Defined.

(* ================================================================== *)
(** * The primary identifier *)
(* ================================================================== *)

Lemma str_app_ne_empty_r s c : s +:+ String c "" ≠ "".
Proof. by destruct s. Qed.

Lemma flush_ne cur : cur ≠ "" → Py.flush cur = [cur].
Proof. by destruct cur. Qed.

(** With a word begun, the first word of the result is that word, carried on
    up to the next white space. *)
Lemma split_go_head cur s :
  cur ≠ "" →
  ∃ tok rest, s = tok +:+ rest ∧ spaceless tok ∧ at_space rest ∧
    head (Py.split_go cur s) = Some (cur +:+ tok).
Proof.
  revert cur. induction s as [|c s IH]; intros cur Hcur.
  - exists "", "". cbn [Py.split_go].
    rewrite flush_ne, (str_app_empty_r cur) by done. done.
  - cbn [Py.split_go]. destruct (Py.isspace c) eqn:Hc.
    + exists "", (String c s).
      rewrite flush_ne, (str_app_empty_r cur) by done.
      repeat split; try done. cbn. by rewrite Hc.
    + destruct (IH (cur +:+ String c "")) as (tok & rest & -> & Htok & Hrest & Hhead).
      { apply str_app_ne_empty_r. }
      exists (String c tok), rest. rewrite Hhead, str_app_assoc.
      split; [done|]. split; [|done]. cbn [spaceless].
      split; [rewrite Hc; intros []|done].
Qed.

Lemma split_go_word cur tok rest :
  spaceless tok →
  Py.split_go cur (tok +:+ rest) = Py.split_go (cur +:+ tok) rest.
Proof.
  revert cur. induction tok as [|c tok IH]; intros cur Htok.
  - by rewrite str_app_empty_r.
  - destruct Htok as [Hc Htok]. rewrite str_app_cons. cbn [Py.split_go].
    destruct (Py.isspace c); [done|].
    rewrite IH by done. by rewrite str_app_assoc.
Qed.

Lemma split_go_blank ws s :
  blank ws → Py.split_go "" (ws +:+ s) = Py.split_go "" s.
Proof.
  induction ws as [|c ws IH]; [done|]. intros [Hc Hws].
  rewrite str_app_cons. cbn [Py.split_go].
  destruct (Py.isspace c); [by apply IH|done].
Qed.

Lemma split_go_at_space cur rest :
  cur ≠ "" → at_space rest → head (Py.split_go cur rest) = Some cur.
Proof.
  intros Hcur Hrest. destruct rest as [|c rest]; cbn [Py.split_go].
  - by rewrite flush_ne.
  - cbn in Hrest. destruct (Py.isspace c); [|done]. by rewrite flush_ne.
Qed.

(** X4. [header.split()[0]] is the first run of characters that are not
    white space: white space before it is skipped, and it ends at the next
    white space or at the end of the header. *)
Theorem primary_id_first_word (header id : string) :
  primary_id header = Some id ↔
  ∃ ws rest, header = ws +:+ id +:+ rest ∧
             blank ws ∧ id ≠ "" ∧ spaceless id ∧ at_space rest.
Proof.
  unfold primary_id, Py.split. split.
  - revert id. induction header as [|c header IH]; intros id; [done|].
    cbn [Py.split_go]. destruct (Py.isspace c) eqn:Hc.
    + cbn [Py.flush app]. intros (ws & rest & -> & Hws & Hid)%IH.
      exists (String c ws), rest. split; [done|]. split; [|done].
      split; [by rewrite Hc|done].
    + rewrite str_app_empty_l.
      destruct (split_go_head (String c "") header)
        as (tok & rest & -> & Htok & Hrest & ->); [done|].
      intros [= <-]. exists "", rest. repeat split; [done..| |done|done].
      rewrite Hc. intros [].
  - intros (ws & rest & -> & Hws & Hne & Hid & Hrest).
    rewrite split_go_blank, split_go_word by done.
    rewrite str_app_empty_l. by apply split_go_at_space.
Qed.

Lemma primary_id_first_word_witness :
  primary_id "  S1 desc text" = Some "S1".
Proof.
  apply primary_id_first_word. exists "  ", " desc text".
  split; [reflexivity|]. split; [by repeat split|].
  split; [done|]. split; [|exact I]. repeat split; by intros [].
Defined.

(* ================================================================== *)
(** * More on the extractor *)
(* ================================================================== *)

Lemma not_blank_is_Some header : ¬ blank header ↔ is_Some (primary_id header).
Proof. rewrite <- primary_id_None, <- not_eq_None_Some. done. Qed.

Lemma extract_loop_app wanted_ids pre post out :
  Forall (λ r, is_Some (primary_id r.1)) pre →
  extract_loop wanted_ids (pre ++ post) out
  = extract_loop wanted_ids post
      (out +:+ Py.join "" (record_text <$> filter (is_wanted wanted_ids) pre)).
Proof.
  intros Hpre. revert out.
  induction Hpre as [|[h s] pre Hh _ IH]; intros out.
  - by rewrite str_app_empty_r.
  - rewrite <- app_comm_cons.
    destruct (decide (is_wanted wanted_ids (h, s))) as [Hw|Hw].
    + rewrite extract_loop_wanted, filter_cons_True by done.
      rewrite IH, fmap_cons, join_cons. by rewrite str_app_assoc.
    + rewrite extract_loop_unwanted, filter_cons_False by done. apply IH.
Qed.

(** X5. At the first header without a word the loop stops with
    [IndexError]; what was written before stays: the wanted records that
    precede it, and nothing of what follows. *)
Theorem extract_loop_partial (wanted_ids : gset string)
    (pre post : list (string * string)) (header seq out : string) :
  Forall (λ r, ¬ blank r.1) pre → blank header →
  extract_loop wanted_ids (pre ++ (header, seq) :: post) out
  = (Raise IndexError,
     out +:+ Py.join "" (record_text <$> filter (is_wanted wanted_ids) pre)).
Proof.
  intros Hpre Hblank.
  rewrite extract_loop_app.
  - apply extract_loop_no_id. by apply primary_id_None.
  - eapply Forall_impl; [exact Hpre|]. intros r. apply not_blank_is_Some.
Qed.

Lemma extract_loop_partial_witness :
  extract_loop {["S1"]} [("S1 a", "AC"); (" ", "GG"); ("S1 b", "TT")] ""
  = (Raise IndexError, with_nl ">S1 a" +:+ with_nl "AC").
Proof.
  rewrite (extract_loop_partial {["S1"]} [("S1 a", "AC")] [("S1 b", "TT")]
             " " "GG" "").
  - vm_compute. reflexivity.
  - repeat constructor. by intros [[] _].
  - by repeat split.
Defined.

(** X6. Whatever its outcome, the extractor prints nothing and touches no
    file but its output file. *)
Theorem extract_sequences_frame (fasta_path out_fasta path : string)
    (wanted_ids : gset string) (w : World) :
  let run := extract_sequences fasta_path wanted_ids out_fasta w in
  stdout run.2 = stdout w ∧
  (path ≠ out_fasta → files run.2 !! path = files w !! path).
Proof.
  unfold extract_sequences.
  destruct (<[out_fasta:=""]> (files w) !! fasta_path) as [content|].
  - destruct (extract_loop _ _ _) as [o out]. cbn.
    split; [done|]. intros Hne. by rewrite !lookup_insert_ne.
  - cbn. split; [done|]. intros Hne. by rewrite lookup_insert_ne.
Qed.

Lemma extract_sequences_frame_witness :
  let w := mkWorld {["in.faa" := with_nl ">S1"; "notes.txt" := "keep"]} ["hello"] in
  files (extract_sequences "in.faa" {["S1"]} "out.fasta" w).2 !! "notes.txt"
  = Some "keep".
Proof.
  intros w.
  destruct (extract_sequences_frame "in.faa" "out.fasta" "notes.txt" {["S1"]} w)
    as (_ & Hframe).
  rewrite Hframe; [reflexivity | discriminate].
Defined.

(** X7. The output file is opened before the input file. So when the input
    file does not exist the extractor raises [FileNotFoundError] and leaves
    an empty output file behind; and when the output path is the input path
    the file is emptied before it is read: no record is found, no error is
    raised, and the sequences are lost. *)
Theorem extract_sequences_open_order (fasta_path out_fasta : string)
    (wanted_ids : gset string) (w : World) :
  (fasta_path ≠ out_fasta → files w !! fasta_path = None →
     extract_sequences fasta_path wanted_ids out_fasta w
     = (Raise FileNotFoundError,
        mkWorld (<[out_fasta := ""]> (files w)) (stdout w))) ∧
  (fasta_path = out_fasta →
     extract_sequences fasta_path wanted_ids out_fasta w
     = (Ok (), mkWorld (<[out_fasta := ""]> (files w)) (stdout w))).
Proof.
  unfold extract_sequences. split.
  - intros Hne Hnone. by rewrite lookup_insert_ne, Hnone.
  - intros ->. rewrite lookup_insert_eq. cbn. by rewrite insert_insert_eq.
Qed.

Lemma extract_sequences_open_order_witness :
  let w := mkWorld {["in.faa" := with_nl ">S1" +:+ with_nl "ACGT"]} [] in
  (extract_sequences "gone.faa" {["S1"]} "out.fasta" w).1
  = Raise FileNotFoundError ∧
  files (extract_sequences "in.faa" {["S1"]} "in.faa" w).2 !! "in.faa"
  = Some "".
Proof.
  intros w.
  destruct (extract_sequences_open_order "gone.faa" "out.fasta" {["S1"]} w)
    as [Hmissing _].
  destruct (extract_sequences_open_order "in.faa" "in.faa" {["S1"]} w)
    as [_ Hsame].
  split.
  - rewrite Hmissing; [reflexivity | discriminate | reflexivity].
  - rewrite Hsame; [reflexivity | reflexivity].
Defined.

(* ================================================================== *)
(** * Reading the output back *)
(* ================================================================== *)






Lemma readlines_line l rest :
  no_lf l →
  Py.readlines (with_nl l +:+ rest) = with_nl l :: Py.readlines rest.
Proof.
  unfold with_nl. induction l as [|c l IH].
  - intros _. apply readlines_cons_LF.
  - intros [Hc Hl]. rewrite !str_app_cons, readlines_cons_other by done.
    by rewrite IH.
Qed.

(** A text made of whole lines is cut back into those lines. *)
Lemma readlines_with_nl ls :
  Forall no_lf ls → Py.readlines (Py.join "" (with_nl <$> ls)) = with_nl <$> ls.
Proof.
  induction 1 as [|l ls Hl _ IH]; [done|].
  rewrite fmap_cons, join_cons, readlines_line by done. by rewrite IH.
Qed.















(** The condition of the round trip is needed: a marker inside a sequence
    can come first on a wrapped line, and then reads back as a header. *)
Example marker_at_wrap_boundary :
  let seq := Py.join "" (replicate 60 "A") +:+ ">X" in
  fasta_iterator (Py.readlines (record_text ("S1", seq)))
  = [("S1", Py.join "" (replicate 60 "A")); ("X", "")].
Proof. vm_compute. reflexivity. Qed.

(* ================================================================== *)
(** * More on the list builder *)
(* ================================================================== *)

Lemma drop_duplicates_go_sublist {A} (key : A → string) seen rows :
  drop_duplicates_go key seen rows `sublist_of` rows.
Proof.
  revert seen. induction rows as [|r rows IH]; intros seen; [done|].
  cbn [drop_duplicates_go]. case_decide.
  - by apply sublist_cons.
  - by apply sublist_skip.
Qed.

(** Rows whose keys are all different, and not seen before, are all kept. *)
Lemma drop_duplicates_go_NoDup_id {A} (key : A → string) seen rows :
  NoDup (key <$> rows) → (∀ r, r ∈ rows → key r ∉ seen) →
  drop_duplicates_go key seen rows = rows.
Proof.
  revert seen. induction rows as [|r rows IH]; intros seen Hnd Hseen; [done|].
  rewrite fmap_cons in Hnd. apply NoDup_cons in Hnd as [Hr Hnd].
  cbn [drop_duplicates_go]. rewrite decide_False.
  2:{ apply Hseen. by left. }
  f_equal. apply IH; [done|]. intros x Hx.
  rewrite not_elem_of_union, not_elem_of_singleton. split.
  - intros Heq. apply Hr. rewrite <- Heq. apply list_elem_of_fmap. eauto.
  - apply Hseen. by right.
Qed.

Lemma unique_sublist ids : unique ids `sublist_of` ids.
Proof. apply drop_duplicates_go_sublist. Qed.

Lemma unique_NoDup_id ids : NoDup ids → unique ids = ids.
Proof.
  intros Hnd. apply drop_duplicates_go_NoDup_id.
  - by rewrite list_fmap_id.
  - intros r _. apply not_elem_of_empty.
Qed.

(** X10. The lists keep the order of the table: each is what is left of the
    column of subject identifiers when the rows that fail the test and the
    later repetitions of an identifier are taken out. On a table whose
    subject identifiers are all different, nothing is taken out but the
    failing rows. *)
Theorem make_lists_order (df : DataFrame) :
  list1_of df `sublist_of` (subject_ID <$> df) ∧
  list2_of df `sublist_of` (subject_ID <$> df) ∧
  (NoDup (subject_ID <$> df) →
     list1_of df
     = subject_ID <$> filter (λ r, SFleb IDENTITY_THRESHOLD (pct_identity r)) df ∧
     list2_of df
     = subject_ID <$> filter (λ r, SFleb (evalue r) EVALUE_THRESHOLD) df).
Proof.
  unfold list1_of, list2_of. split; [|split].
  - etrans; [apply unique_sublist|]. apply fmap_sublist, sublist_filter.
  - etrans; [apply unique_sublist|]. apply fmap_sublist, sublist_filter.
  - intros Hnd. split; apply unique_NoDup_id.
    + eapply sublist_NoDup; [exact Hnd|]. apply fmap_sublist, sublist_filter.
    + eapply sublist_NoDup; [exact Hnd|]. apply fmap_sublist, sublist_filter.
Qed.

Lemma make_lists_order_witness :
  let df := [hit "Q1" "S3" f40 f1e_9; hit "Q2" "S2" f30 f1e_9;
             hit "Q3" "S1" f40 f1e_5] in
  list1_of df = ["S3"; "S1"] ∧ list2_of df = ["S3"; "S2"].
Proof.
  intros df. destruct (make_lists_order df) as (_ & _ & Hdistinct).
  destruct Hdistinct as [-> ->].
  - apply (bool_decide_unpack _). vm_compute. exact I.
  - split; vm_compute; reflexivity.
Defined.

Lemma join_nl_lines ids :
  ids ≠ [] → Py.join Py.nl ids +:+ Py.nl = Py.join "" (with_nl <$> ids).
Proof.
  induction ids as [|s ids IH]; [done|]. intros _.
  destruct ids as [|t ids].
  - reflexivity.
  - change (Py.join Py.nl (s :: t :: ids))
      with (s +:+ Py.nl +:+ Py.join Py.nl (t :: ids)).
    rewrite !str_app_assoc, IH by done.
    rewrite (fmap_cons with_nl s), join_cons.
    unfold with_nl at 2. by rewrite str_app_assoc.
Qed.

Lemma list_file_lines ids :
  ids ≠ [] → Forall no_lf ids →
  Py.readlines (Py.join Py.nl ids +:+ Py.nl) = with_nl <$> ids.
Proof.
  intros Hne Hlf. rewrite join_nl_lines by done. by apply readlines_with_nl.
Qed.

(** X11. A list that is not empty is written one identifier per line: the
    lines of its file are the identifiers of the list, in order, each ended
    by a line feed (identifiers are taken to hold no line feed). *)
Theorem make_lists_file_lines (df : DataFrame) (outdir : string) (w : World) :
  let w' := (make_lists df outdir w).2 in
  (list1_of df ≠ [] → Forall no_lf (list1_of df) →
     ∃ text, files w' !! list1_file outdir = Some text ∧
             Py.readlines text = with_nl <$> list1_of df) ∧
  (list2_of df ≠ [] → Forall no_lf (list2_of df) →
     ∃ text, files w' !! list2_file outdir = Some text ∧
             Py.readlines text = with_nl <$> list2_of df).
Proof.
  rewrite make_lists_run. cbn [snd files]. split; intros Hne Hlf.
  - eexists. split; [|by apply list_file_lines].
    by rewrite lookup_insert_ne, lookup_insert_eq
      by (symmetry; apply list_files_ne).
  - eexists. split; [|by apply list_file_lines]. by rewrite lookup_insert_eq.
Qed.

Lemma make_lists_file_lines_witness :
  let df := [hit "Q1" "S1" f40 f1e_9; hit "Q2" "S2" f30 f1e_9;
             hit "Q3" "S3" f40 f1e_5] in
  ∃ text, files (make_lists df "results" (mkWorld ∅ [])).2
            !! list1_file "results" = Some text ∧
          Py.readlines text = [with_nl "S1"; with_nl "S3"].
Proof.
  intros df.
  destruct (make_lists_file_lines df "results" (mkWorld ∅ [])) as [H1 _].
  apply H1.
  - vm_compute. discriminate.
  - vm_compute. repeat constructor; discriminate.
Defined.

(** X12. What the script calls a shared hit: a subject identifier is in
    both returned sets when some row with that subject passes the identity
    test and some row with that subject, the same or another, passes the
    e-value test. *)
Theorem make_lists_shared (df : DataFrame) (outdir s : string) (w w' : World)
    (list1 list2 : gset string) :
  make_lists df outdir w = (Ok (list1, list2), w') →
  s ∈ list1 ∩ list2 ↔
  (∃ r, r ∈ df ∧ subject_ID r = s ∧
        SFleb IDENTITY_THRESHOLD (pct_identity r) = true) ∧
  (∃ r, r ∈ df ∧ subject_ID r = s ∧
        SFleb (evalue r) EVALUE_THRESHOLD = true).
Proof.
  rewrite make_lists_run. intros [= <- <- _].
  rewrite elem_of_intersection, !elem_of_list_to_set.
  by rewrite list1_of_elem_of, list2_of_elem_of.
Qed.

Lemma make_lists_shared_witness :
  let df := [hit "Q1" "S1" f40 f1e_5; hit "Q2" "S1" f30 f1e_9] in
  let run := make_lists df "results" (mkWorld ∅ []) in
  ∃ list1 list2, run.1 = Ok (list1, list2) ∧ "S1" ∈ list1 ∩ list2.
Proof.
  intros df run. exists (list_to_set (list1_of df)), (list_to_set (list2_of df)).
  split; [reflexivity|].
  apply (make_lists_shared df "results" "S1" (mkWorld ∅ []) run.2);
    [reflexivity|].
  split.
  - exists (hit "Q1" "S1" f40 f1e_5). split; [by left|]. by split.
  - exists (hit "Q2" "S1" f30 f1e_9).
    split; [right; by left|]. by split.
Defined.

(* ================================================================== *)
(** * The comparison *)
(* ================================================================== *)

(** X13. The comparison always ends normally, changes no file and prints
    five lines. The three counts it prints are the sizes of three sets that
    split the union of the two lists: no identifier is counted twice, none
    is left out. The verdict names list (a) exactly when it is the longer,
    list (b) exactly when it is, and neither exactly when the two lists
    have the same size. *)
Theorem compare_lists_counts (list1 list2 : gset string) (w : World) :
  let only_a := list1 ∖ list2 in
  let only_b := list2 ∖ list1 in
  let common := list1 ∩ list2 in
  ∃ verdict,
    compare_lists list1 list2 w
    = (Ok (),
       mkWorld (files w)
         (stdout w ++
          [Py.nl +:+ "─── List comparison ───────────────────────────────────────────────";
           "Hits fulfilling (a) only         : " +:+ fmt_3d (size only_a);
           "Hits fulfilling (b) only         : " +:+ fmt_3d (size only_b);
           "Hits fulfilling both criteria   : " +:+ fmt_3d (size common) +:+ Py.nl;
           verdict])) ∧
    size only_a + size only_b + size common = size (list1 ∪ list2) ∧
    size only_a + size common = size list1 ∧
    size only_b + size common = size list2 ∧
    (verdict = "Criterion (a) (identity ≥ 35 %) retrieves more candidates more than (b)."
       ↔ size list2 < size list1) ∧
    (verdict = "Criterion (b) (E‑value ≤ 1 × 10⁻⁷) retrieves more candidates more than (a)."
       ↔ size list1 < size list2) ∧
    (verdict = "Both criteria retrieve the same number of candidates."
       ↔ size list1 = size list2).
Proof.
  intros only_a only_b common.
  assert (size only_a + size common = size list1) as Ha.
  { rewrite <- size_union.
    2:{ apply elem_of_disjoint. intros x.
        unfold only_a, only_b, common.
        rewrite elem_of_difference, elem_of_intersection. tauto. }
    f_equal. apply set_eq. intros x.
    unfold only_a, common.
    rewrite elem_of_union, elem_of_difference, elem_of_intersection.
    destruct (decide (x ∈ list2)); tauto. }
  assert (size only_b + size common = size list2) as Hb.
  { rewrite <- size_union.
    2:{ apply elem_of_disjoint. intros x.
        unfold only_a, only_b, common.
        rewrite elem_of_difference, elem_of_intersection. tauto. }
    f_equal. apply set_eq. intros x.
    unfold only_b, common.
    rewrite elem_of_union, elem_of_difference, elem_of_intersection.
    destruct (decide (x ∈ list1)); tauto. }
  assert (size only_a + size only_b + size common = size (list1 ∪ list2)) as Hu.
  { rewrite size_union_alt. fold only_b. lia. }
  unfold compare_lists.
  repeat (erewrite bind_ok; [|apply print_run]). cbn [files stdout].
  fold only_a only_b common.
  repeat case_decide; rewrite print_run; cbn [files stdout];
    rewrite <- !app_assoc; cbn [app];
    eexists; (split; [reflexivity|]);
    (split; [exact Hu|]); (split; [exact Ha|]); (split; [exact Hb|]);
    repeat split; intros; first [lia | done].
Qed.

(* ================================================================== *)
(** * More on the rows of the heat-map *)
(* ================================================================== *)

Lemma heatmap_rows_ids sort_values df shared_ids :
  sorts_descending sort_values →
  (list_to_set (subject_ID <$> heatmap_rows sort_values df shared_ids) : gset string)
  = shared_ids ∩ list_to_set (subject_ID <$> df).
Proof.
  intros Hsort. apply set_eq. intros id.
  rewrite elem_of_intersection, !elem_of_list_to_set.
  rewrite (heatmap_rows_Permutation _ df shared_ids Hsort).
  unfold drop_duplicates.
  rewrite drop_duplicates_go_keys, !list_elem_of_fmap. split.
  - intros [(x & -> & [Hx Hin]%list_elem_of_filter) _]. eauto.
  - intros (Hid & x & -> & Hin). split; [|apply not_elem_of_empty].
    exists x. split; [done|]. by apply list_elem_of_filter.
Qed.

Lemma heatmap_rows_length sort_values df shared_ids :
  sorts_descending sort_values →
  length (heatmap_rows sort_values df shared_ids)
  = size (shared_ids ∩ list_to_set (subject_ID <$> df) : gset string).
Proof.
  intros Hsort. rewrite <- (heatmap_rows_ids sort_values) by done.
  rewrite size_list_to_set, length_fmap; [done|].
  rewrite (heatmap_rows_Permutation _ df shared_ids Hsort).
  apply drop_duplicates_go_NoDup.
Qed.

(** X14. The heat-map has one row for each shared identifier that occurs
    in the table. For the set the script passes, the identifiers in both
    lists of that table, this is one row for each shared hit. *)
Theorem heatmap_rows_count (sort_values : list Row → list Row)
    (df : DataFrame) (shared_ids : gset string) :
  sorts_descending sort_values →
  length (heatmap_rows sort_values df shared_ids)
  = size (shared_ids ∩ list_to_set (subject_ID <$> df) : gset string) ∧
  (shared_ids = list_to_set (list1_of df) ∩ list_to_set (list2_of df) →
     length (heatmap_rows sort_values df shared_ids) = size shared_ids).
Proof.
  intros Hsort. split; [by apply heatmap_rows_length|].
  intros Hshared. rewrite heatmap_rows_length by done. f_equal.
  apply set_eq. intros id. rewrite elem_of_intersection. split; [tauto|].
  intros Hid. split; [done|]. rewrite Hshared in Hid.
  apply elem_of_intersection in Hid as [Hid _].
  apply elem_of_list_to_set, list1_of_elem_of in Hid as (r & Hr & <- & _).
  apply elem_of_list_to_set, list_elem_of_fmap. eauto.
Qed.

Lemma heatmap_rows_count_witness :
  let df := [hit "Q1" "S1" f40 f1e_9; hit "Q2" "S2" f30 f1e_9;
             hit "Q3" "S1" f50 f1e_9; hit "Q4" "S3" f50 f1e_9] in
  length (heatmap_rows merge_sort_values df
            (list_to_set (list1_of df) ∩ list_to_set (list2_of df))) = 2.
Proof.
  intros df.
  destruct (heatmap_rows_count merge_sort_values df
              (list_to_set (list1_of df) ∩ list_to_set (list2_of df))
              merge_sort_values_sorts) as [_ ->]; [reflexivity|].
  vm_compute. reflexivity.
Defined.

(** The order of floats is transitive. *)
Lemma SFleb_trans x y z :
  SFleb x y = true → SFleb y z = true → SFleb x z = true.
Proof.
  unfold SFleb.
  destruct x as [sx|sx| |sx mx ex], y as [sy|sy| |sy my ey],
    z as [sz|sz| |sz mz ez]; cbn [SFcompare]; try done;
    try (destruct sx, sy, sz; done).
  change (PosDef.Pos.compare_cont Eq) with Pos.compare.
  destruct sx, sy, sz; try done;
    destruct (Z.compare_spec ex ey), (Z.compare_spec ey ez),
      (Z.compare_spec ex ez); try done; try lia; subst;
    destruct (Pos.compare_spec mx my), (Pos.compare_spec my mz),
      (Pos.compare_spec mx mz); try done; lia.
Qed.

Global Instance identity_ge_trans : Transitive identity_ge.
Proof.
  intros a b c. unfold identity_ge, identity_geb.
  destruct (isna (pct_identity c)) eqn:Hc; [done|].
  destruct (isna (pct_identity b)) eqn:Hb; [done|].
  destruct (isna (pct_identity a)) eqn:Ha; [done|]. cbn.
  intros Hba%Is_true_true Hcb%Is_true_true. apply Is_true_true.
  by eapply SFleb_trans.
Qed.

Lemma StronglySorted_precedes {A} (R : relation A) rows a b :
  StronglySorted R rows → precedes rows a b → R a b.
Proof.
  intros Hsorted (l1 & l2 & l3 & ->).
  apply StronglySorted_app_1_r, StronglySorted_inv in Hsorted as [_ Hall].
  rewrite Forall_forall in Hall. apply Hall.
  apply elem_of_app. right. by left.
Qed.

(** X15. In the heat-map every row stands above all rows of smaller
    identity, not only above the next one: of two rows, the upper has an
    identity at least that of the lower, and a row with a missing identity
    has only such rows below it. *)
Theorem heatmap_rows_descending (sort_values : list Row → list Row)
    (df : DataFrame) (shared_ids : gset string) (upper lower : Row) :
  sorts_descending sort_values →
  precedes (heatmap_rows sort_values df shared_ids) upper lower →
  (isna (pct_identity lower) = false →
     isna (pct_identity upper) = false ∧
     SFleb (pct_identity lower) (pct_identity upper) = true) ∧
  (isna (pct_identity upper) = true → isna (pct_identity lower) = true).
Proof.
  intros Hsort Hprec.
  assert (identity_ge upper lower) as Hge.
  { eapply StronglySorted_precedes; [|exact Hprec].
    apply Sorted_StronglySorted; [apply _|]. apply Hsort. }
  unfold identity_ge, identity_geb in Hge.
  destruct (isna (pct_identity lower)), (isna (pct_identity upper));
    cbn in Hge; try done.
  split; [|done]. intros _. split; [done|]. by apply Is_true_true.
Qed.

Lemma heatmap_rows_descending_witness :
  let df := [hit "Q1" "S1" f40 f1e_9; hit "Q2" "S2" f30 f1e_9;
             hit "Q3" "S1" f50 f1e_9; hit "Q4" "S3" f50 f1e_9] in
  SFleb f40 f50 = true.
Proof.
  intros df.
  destruct (heatmap_rows_descending merge_sort_values df {["S1"; "S3"]}
              (hit "Q4" "S3" f50 f1e_9) (hit "Q1" "S1" f40 f1e_9)
              merge_sort_values_sorts) as [Hboth _].
  - exists [], [], []. vm_compute. reflexivity.
  - apply Hboth. reflexivity.
Defined.

(* ================================================================== *)
(** * More on the script *)
(* ================================================================== *)

Lemma output_files_ne outdir :
  list1_file outdir ≠ list2_file outdir ∧
  list1_file outdir ≠ heatmap_file outdir ∧
  list1_file outdir ≠ fasta_file outdir ∧
  list2_file outdir ≠ heatmap_file outdir ∧
  list2_file outdir ≠ fasta_file outdir ∧
  heatmap_file outdir ≠ fasta_file outdir.
Proof.
  unfold list1_file, list2_file, heatmap_file, fasta_file.
  repeat split; by intros H%path_join_inj.
Qed.

Lemma not_output_file outdir path :
  path ∉ output_files outdir →
  path ≠ list1_file outdir ∧ path ≠ list2_file outdir ∧
  path ≠ heatmap_file outdir ∧ path ≠ fasta_file outdir.
Proof.
  unfold output_files. rewrite !not_elem_of_cons. tauto.
Qed.

Lemma extract_sequences_other_files fasta_path wanted_ids out_fasta w path :
  path ≠ out_fasta →
  files (extract_sequences fasta_path wanted_ids out_fasta w).2 !! path
  = files w !! path.
Proof.
  intros Hne. unfold extract_sequences.
  destruct (<[out_fasta:=""]> (files w) !! fasta_path) as [content|].
  - destruct (extract_loop _ _ _) as [o out]. cbn.
    by rewrite !lookup_insert_ne.
  - cbn. by rewrite lookup_insert_ne.
Qed.

Lemma extract_sequences_frame_files fasta_path wanted_ids out_fasta w :
  is_Some (files (extract_sequences fasta_path wanted_ids out_fasta w).2
             !! out_fasta).
Proof.
  unfold extract_sequences.
  destruct (<[out_fasta:=""]> (files w) !! fasta_path) as [content|].
  - destruct (extract_loop _ _ _) as [o out]. cbn. by rewrite lookup_insert_eq.
  - cbn. by rewrite lookup_insert_eq.
Qed.

Lemma extract_sequences_stdout fasta_path wanted_ids out_fasta w :
  stdout (extract_sequences fasta_path wanted_ids out_fasta w).2 = stdout w.
Proof.
  unfold extract_sequences.
  destruct (<[out_fasta:=""]> (files w) !! fasta_path) as [content|]; [|done].
  by destruct (extract_loop _ _ _) as [o out].
Qed.

(** The extraction of a readable file whose headers all have a word. *)
Lemma extract_sequences_run fasta_path wanted_ids out_fasta w content :
  fasta_path ≠ out_fasta →
  files w !! fasta_path = Some content →
  Forall (λ r, ¬ blank r.1) (fasta_iterator (Py.readlines content)) →
  extract_sequences fasta_path wanted_ids out_fasta w
  = (Ok (),
     mkWorld
       (<[out_fasta := Py.join "" (record_text <$>
            filter (is_wanted wanted_ids) (fasta_iterator (Py.readlines content)))]>
          (files w))
       (stdout w)).
Proof.
  intros Hne Hfile Hall. unfold extract_sequences.
  rewrite lookup_insert_ne, Hfile by done.
  rewrite extract_loop_ok.
  - by rewrite insert_insert_eq.
  - eapply Forall_impl; [exact Hall|]. intros r. apply not_blank_is_Some.
Qed.

(** The extraction of a file one of whose headers has no word. *)
Lemma extract_sequences_blank fasta_path wanted_ids out_fasta w content :
  fasta_path ≠ out_fasta →
  files w !! fasta_path = Some content →
  ¬ Forall (λ r, ¬ blank r.1) (fasta_iterator (Py.readlines content)) →
  (extract_sequences fasta_path wanted_ids out_fasta w).1 = Raise IndexError.
Proof.
  intros Hne Hfile Hsome. unfold extract_sequences.
  rewrite lookup_insert_ne, Hfile by done.
  destruct (extract_loop _ _ _) as [[[]|e] out] eqn:Hloop; cbn.
  - destruct Hsome. apply extract_loop_outcome with (wanted_ids := wanted_ids)
      (out := ""). by rewrite Hloop.
  - revert Hloop. generalize "". generalize (fasta_iterator (Py.readlines content)).
    intros rs. induction rs as [|[h s] rs IH]; intros acc; [done|].
    cbn [extract_loop]. destruct (Py.split h); [by intros [= <- _]|].
    case_decide; apply IH.
Qed.

Section MainMore.

Variable parse_float : string → option spec_float.
Variable read_csv : option string → outcome (list RawRow).
Variable sort_values : list Row → list Row.
Variable savefig : list Row → string.

Let run_main := main parse_float read_csv sort_values savefig.

(** The files once the lists are written. *)
Let with_lists (df : DataFrame) (outdir : string) (fs : gmap string string) :=
  <[list2_file outdir := Py.join Py.nl (list2_of df) +:+ Py.nl]>
    (<[list1_file outdir := Py.join Py.nl (list1_of df) +:+ Py.nl]> fs).

(** The files once the image is written as well. *)
Let with_image (df : DataFrame) (outdir : string) (fs : gmap string string) :=
  <[heatmap_file outdir :=
      savefig (heatmap_rows sort_values df
                 (list_to_set (list1_of df) ∩ list_to_set (list2_of df)))]>
    (with_lists df outdir fs).

(** The script, once the table is read, step by step. *)
Lemma main_loaded blast fasta outdir w raw :
  read_csv (files w !! blast) = Ok raw →
  let df : DataFrame := coerce parse_float <$> raw in
  let shared : gset string :=
    list_to_set (list1_of df) ∩ list_to_set (list2_of df) in
  ∃ lines,
    run_main blast fasta outdir w
    = if decide (shared = ∅) then
        (Raise (SystemExit None),
         mkWorld (with_lists df outdir (files w))
           (stdout w ++ lines ++ ["No shared hits – nothing more to do."]))
      else
        let w3 := mkWorld (with_image df outdir (files w))
                    (stdout w ++ lines ++
                     ["Heat‑map saved as: " +:+ heatmap_file outdir]) in
        let run := extract_sequences fasta shared (fasta_file outdir) w3 in
        match run.1 with
        | Ok _ =>
            (Ok (),
             mkWorld (files run.2)
               (stdout run.2 ++
                ["FASTA of shared hit sequences written to: "
                 +:+ fasta_file outdir +:+ Py.nl]))
        | Raise e => (Raise e, run.2)
        end.
Proof.
  intros Hread df shared. unfold run_main, main.
  erewrite bind_ok; [|by apply load_blast_table_run].
  erewrite bind_ok; [|apply make_lists_run]. fold df.
  destruct (compare_lists_run (list_to_set (list1_of df))
              (list_to_set (list2_of df))
              (mkWorld (with_lists df outdir (files w)) (stdout w)))
    as (lines & _ & Hcmp).
  exists lines. erewrite bind_ok; [|exact Hcmp]. fold shared.
  destruct (decide (shared = ∅)) as [Hempty|Hsome].
  - erewrite bind_raise; [|erewrite bind_ok; [|apply print_run]; reflexivity].
    cbn [files stdout]. by rewrite <- app_assoc.
  - erewrite bind_ok; [|reflexivity].
    erewrite bind_ok; [|reflexivity].
    erewrite bind_ok; [|apply print_run]. cbn [files stdout].
    rewrite <- app_assoc. unfold mbind, M_bind.
    fold (heatmap_file outdir) (fasta_file outdir).
    fold (with_image df outdir (files w)).
    destruct (extract_sequences _ _ _ _) as [[[]|e] w4]; reflexivity.
Qed.

(** The files of the output directory after the run, the sequence file
    apart. *)
Lemma main_files blast fasta outdir w raw path :
  read_csv (files w !! blast) = Ok raw →
  path ≠ fasta_file outdir →
  let df : DataFrame := coerce parse_float <$> raw in
  files (run_main blast fasta outdir w).2 !! path
  = if decide ((list_to_set (list1_of df) ∩ list_to_set (list2_of df)
                : gset string) = ∅)
    then with_lists df outdir (files w) !! path
    else with_image df outdir (files w) !! path.
Proof.
  intros Hread Hne df.
  destruct (main_loaded blast fasta outdir w raw Hread) as (lines & ->).
  fold df. case_decide; [done|]. cbn zeta.
  pose proof (extract_sequences_other_files fasta
                (list_to_set (list1_of df) ∩ list_to_set (list2_of df))
                (fasta_file outdir)
                (mkWorld (with_image df outdir (files w))
                   (stdout w ++ lines ++
                    ["Heat‑map saved as: " +:+ heatmap_file outdir]))
                path Hne) as Hframe.
  by destruct (extract_sequences _ _ _ _).1.
Qed.

(** X16. When the table cannot be read the script stops with the error of
    the reader: no file is written and nothing is printed. *)
Theorem main_read_error (blast fasta outdir : string) (w : World) (e : exn) :
  read_csv (files w !! blast) = Raise e →
  main parse_float read_csv sort_values savefig blast fasta outdir w
  = (Raise e, w).
Proof.
  intros Hread. unfold main.
  erewrite bind_raise; [reflexivity|]. by apply load_blast_table_raise.
Qed.

(** X17. The whole run, for an output directory given by a plain name and a
    sequence file given by a plain path. When the table is read, some
    identifier is in both lists, the sequence file is readable, is none of
    the output files, and has a word in each header, the script ends
    normally: the four files are written (the lists, the image of the
    selected rows, the wanted sequences) and the last line printed names
    the sequence file. *)
Theorem main_complete (blast fasta outdir content : string) (w : World)
    (raw : list RawRow) :
  plain_name outdir → plain_path fasta →
  read_csv (files w !! blast) = Ok raw →
  let df : DataFrame := coerce parse_float <$> raw in
  let shared : gset string :=
    list_to_set (list1_of df) ∩ list_to_set (list2_of df) in
  let records := fasta_iterator (Py.readlines content) in
  shared ≠ ∅ →
  fasta ∉ output_files outdir →
  files w !! fasta = Some content →
  Forall (λ r, ¬ blank r.1) records →
  ∃ w', main parse_float read_csv sort_values savefig blast fasta outdir w
        = (Ok (), w') ∧
    files w'
    = <[fasta_file outdir :=
          Py.join "" (record_text <$> filter (is_wanted shared) records)]>
        (<[heatmap_file outdir := savefig (heatmap_rows sort_values df shared)]>
           (<[list2_file outdir := Py.join Py.nl (list2_of df) +:+ Py.nl]>
              (<[list1_file outdir := Py.join Py.nl (list1_of df) +:+ Py.nl]>
                 (files w)))) ∧
    last (stdout w')
    = Some ("FASTA of shared hit sequences written to: "
            +:+ fasta_file outdir +:+ Py.nl).
Proof.
  intros _ _ Hread df shared records Hshared Hfasta Hfile Hall.
  destruct (not_output_file _ _ Hfasta) as (H1 & H2 & H3 & H4).
  destruct (main_loaded blast fasta outdir w raw Hread) as (lines & Hrun).
  fold run_main. rewrite Hrun. fold df shared.
  rewrite decide_False by done. cbn zeta.
  rewrite (extract_sequences_run _ _ _ _ content); [| done | | done].
  - eexists. split; [reflexivity|]. cbn [files stdout].
    split; [done|]. apply last_snoc.
  - cbn [files]. unfold with_image, with_lists.
    by rewrite !lookup_insert_ne.
Qed.

(** X18. Whatever its outcome, the script changes no file other than its
    four output files: in particular not the table and not the sequence
    file it reads, when they are not among those. The output directory is
    given by a plain name and the file by a plain path, so that a path
    other than the four names a file other than the four (links between
    files apart). *)
Theorem main_frame (blast fasta outdir path : string) (w : World) :
  plain_name outdir → plain_path path →
  path ∉ output_files outdir →
  files (main parse_float read_csv sort_values savefig blast fasta outdir w).2
    !! path
  = files w !! path.
Proof.
  intros _ _ Hpath.
  destruct (not_output_file _ _ Hpath) as (H1 & H2 & H3 & H4).
  destruct (read_csv (files w !! blast)) as [raw|e] eqn:Hread.
  - fold run_main. rewrite (main_files _ _ _ _ raw) by done.
    unfold with_image, with_lists. case_decide; by rewrite !lookup_insert_ne.
  - unfold main. erewrite bind_raise; [reflexivity|].
    by apply load_blast_table_raise.
Qed.

(** X19. Once the table is read the two list files are written, and they
    hold the lists whatever happens afterwards: an early exit, an error in
    the extraction, or a normal end. *)
Theorem main_lists_written (blast fasta outdir : string) (w : World)
    (raw : list RawRow) :
  read_csv (files w !! blast) = Ok raw →
  let df : DataFrame := coerce parse_float <$> raw in
  let w' := (main parse_float read_csv sort_values savefig
               blast fasta outdir w).2 in
  files w' !! list1_file outdir = Some (Py.join Py.nl (list1_of df) +:+ Py.nl) ∧
  files w' !! list2_file outdir = Some (Py.join Py.nl (list2_of df) +:+ Py.nl).
Proof.
  intros Hread df w'. unfold w'. fold run_main.
  destruct (output_files_ne outdir) as (H12 & H1p & H1f & H2p & H2f & Hpf).
  rewrite !(main_files _ _ _ _ raw) by done.
  unfold with_image, with_lists. fold df. case_decide.
  - split; [by rewrite lookup_insert_ne, lookup_insert_eq|].
    by rewrite lookup_insert_eq.
  - split.
    + rewrite lookup_insert_ne by done.
      by rewrite lookup_insert_ne, lookup_insert_eq.
    + rewrite lookup_insert_ne by done. by rewrite lookup_insert_eq.
Qed.

(** X20. For an output directory given by a plain name and a sequence file
    given by a plain path: when some identifier is in both lists and the
    extraction fails, because the sequence file does not exist or because
    one of its headers has no word, the script ends with that error (status
    1) after the image has been written: the image file holds the heat-map,
    the sequence file exists, empty or cut short, and the last line printed
    is the one about the image. *)
Theorem main_extraction_fails (blast fasta outdir : string) (w : World)
    (raw : list RawRow) :
  plain_name outdir → plain_path fasta →
  read_csv (files w !! blast) = Ok raw →
  let df : DataFrame := coerce parse_float <$> raw in
  let shared : gset string :=
    list_to_set (list1_of df) ∩ list_to_set (list2_of df) in
  shared ≠ ∅ →
  fasta ∉ output_files outdir →
  (files w !! fasta = None ∨
   ∃ content, files w !! fasta = Some content ∧
     ¬ Forall (λ r, ¬ blank r.1) (fasta_iterator (Py.readlines content))) →
  ∃ e w', main parse_float read_csv sort_values savefig blast fasta outdir w
          = (Raise e, w') ∧
    (e = FileNotFoundError ∨ e = IndexError) ∧
    exit_status (A := unit) (Raise e) = 1%Z ∧
    files w' !! heatmap_file outdir
    = Some (savefig (heatmap_rows sort_values df shared)) ∧
    is_Some (files w' !! fasta_file outdir) ∧
    last (stdout w') = Some ("Heat‑map saved as: " +:+ heatmap_file outdir).
Proof.
  intros _ _ Hread df shared Hshared Hfasta Hcause.
  destruct (not_output_file _ _ Hfasta) as (H1 & H2 & H3 & H4).
  destruct (main_loaded blast fasta outdir w raw Hread) as (lines & Hrun).
  fold run_main. rewrite Hrun. fold df shared.
  rewrite decide_False by done. cbn zeta.
  set (w3 := mkWorld (with_image df outdir (files w))
               (stdout w ++ lines ++
                ["Heat‑map saved as: " +:+ heatmap_file outdir])).
  assert (files w3 !! fasta = files w !! fasta) as Hsame.
  { cbn [w3 files]. unfold with_image, with_lists.
    by rewrite !lookup_insert_ne. }
  assert (∃ e, (extract_sequences fasta shared (fasta_file outdir) w3).1
               = Raise e ∧ (e = FileNotFoundError ∨ e = IndexError))
    as (e & He & Hwhich).
  { destruct Hcause as [Hnone|(content & Hsome & Hblank)].
    - exists FileNotFoundError. split; [|by left].
      unfold extract_sequences.
      by rewrite lookup_insert_ne, Hsame, Hnone.
    - exists IndexError. split; [|by right].
      apply (extract_sequences_blank _ _ _ _ content); [done| |done].
      by rewrite Hsame. }
  pose proof (extract_sequences_frame_files fasta shared (fasta_file outdir) w3)
    as Hout.
  pose proof (extract_sequences_other_files fasta shared (fasta_file outdir) w3
                (heatmap_file outdir)) as Hpng.
  pose proof (extract_sequences_stdout fasta shared (fasta_file outdir) w3)
    as Hstd.
  rewrite He. eexists e, _. split; [reflexivity|]. split; [done|].
  split; [by destruct Hwhich as [-> | ->]|].
  split.
  - rewrite Hpng.
    + cbn [w3 files]. unfold with_image. by rewrite lookup_insert_eq.
    + apply output_files_ne.
  - split; [exact Hout|]. rewrite Hstd. cbn [w3 stdout].
    rewrite app_assoc. apply last_snoc.
Qed.

End MainMore.

Lemma main_read_error_witness :
  let w := mkWorld {["proteins.faa" := with_nl ">S1"]} ["before"] in
  main (λ _, None) (λ _, Raise (ReaderError "no such file")) (λ rows, rows)
    (λ _, "png") "hits.txt" "proteins.faa" "results" w
  = (Raise (ReaderError "no such file"), w).
Proof.
  intros w. by apply main_read_error.
Defined.

Lemma main_complete_witness :
  let raw := [raw_hit "Q1" "S1" f40 f1e_9; raw_hit "Q2" "S2" f30 f1e_9] in
  let content := with_nl ">S1 d" +:+ with_nl "ACGT" +:+ with_nl ">S2" +:+ with_nl "GG" in
  let w := mkWorld {["hits.txt" := ""; "proteins.faa" := content]} [] in
  let run := main (λ _, None) (λ _, Ok raw) merge_sort_values (λ _, "png")
               "hits.txt" "proteins.faa" "results" w in
  run.1 = Ok () ∧
  files run.2 !! fasta_file "results" = Some (with_nl ">S1 d" +:+ with_nl "ACGT") ∧
  files run.2 !! heatmap_file "results" = Some "png".
Proof.
  intros raw content w run.
  destruct (main_complete (λ _, None) (λ _, Ok raw) merge_sort_values
              (λ _, "png") "hits.txt" "proteins.faa" "results" content w raw)
    as (w' & Hrun & Hfiles & _).
  - by repeat split.
  - left. by repeat split.
  - reflexivity.
  - apply (bool_decide_unpack _). vm_compute. exact I.
  - apply (bool_decide_unpack _). vm_compute. exact I.
  - reflexivity.
  - repeat constructor; by intros [[] _].
  - unfold run. rewrite Hrun. cbn [fst snd]. rewrite Hfiles.
    split; [reflexivity|]. split; vm_compute; reflexivity.
Defined.

Lemma main_frame_witness :
  let raw := [raw_hit "Q1" "S1" f40 f1e_9] in
  let w := mkWorld {["hits.txt" := "table"; "proteins.faa" := with_nl ">"]} [] in
  files (main (λ _, None) (λ _, Ok raw) merge_sort_values (λ _, "png")
           "hits.txt" "proteins.faa" "results" w).2 !! "proteins.faa"
  = Some (with_nl ">").
Proof.
  intros raw w. rewrite main_frame; [reflexivity | | |].
  - by repeat split.
  - left. by repeat split.
  - apply (bool_decide_unpack _). vm_compute. exact I.
Defined.

Lemma main_lists_written_witness :
  let raw := [raw_hit "Q1" "S1" f40 f1e_9] in
  let w := mkWorld {["hits.txt" := "table"; "proteins.faa" := with_nl ">"]} [] in
  let run := main (λ _, None) (λ _, Ok raw) merge_sort_values (λ _, "png")
               "hits.txt" "proteins.faa" "results" w in
  run.1 = Raise IndexError ∧
  files run.2 !! list1_file "results" = Some (with_nl "S1") ∧
  files run.2 !! list2_file "results" = Some (with_nl "S1").
Proof.
  intros raw w run.
  destruct (main_lists_written (λ _, None) (λ _, Ok raw) merge_sort_values
              (λ _, "png") "hits.txt" "proteins.faa" "results" w raw)
    as [H1 H2]; [reflexivity|].
  split; [vm_compute; reflexivity|]. split; [exact H1 | exact H2].
Defined.

Lemma main_extraction_fails_witness :
  let raw := [raw_hit "Q1" "S1" f40 f1e_9] in
  let w := mkWorld {["hits.txt" := "table"]} [] in
  let run := main (λ _, None) (λ _, Ok raw) merge_sort_values (λ _, "png")
               "hits.txt" "proteins.faa" "results" w in
  run.1 = Raise FileNotFoundError ∧
  files run.2 !! heatmap_file "results" = Some "png" ∧
  files run.2 !! fasta_file "results" = Some "".
Proof.
  intros raw w run.
  destruct (main_extraction_fails (λ _, None) (λ _, Ok raw) merge_sort_values
              (λ _, "png") "hits.txt" "proteins.faa" "results" w raw)
    as (e & w' & Hrun & _ & _ & Hpng & _ & _).
  - by repeat split.
  - left. by repeat split.
  - reflexivity.
  - apply (bool_decide_unpack _). vm_compute. exact I.
  - apply (bool_decide_unpack _). vm_compute. exact I.
  - left. reflexivity.
  - split; [vm_compute; reflexivity|].
    split; [|vm_compute; reflexivity].
    unfold run. rewrite Hrun. exact Hpng.
Defined.

(* ================================================================== *)
(** * More on the loader and on stripping *)
(* ================================================================== *)

Section Coercion.

Variable parse_float : string → option spec_float.

(** X21. A value that fails to parse is missing in its own column only. A
    row whose identity is a text that is not a number never counts for list
    A, but it stays in the table: when its e-value passes the test its
    subject is in list B. The same holds with the two columns exchanged. *)
Theorem coerce_missing_one_column (raw : list RawRow) (r : RawRow) (s : string) :
  r ∈ raw → parse_float s = None →
  (pct_identity r = Text s →
     SFleb IDENTITY_THRESHOLD (to_numeric parse_float (pct_identity r)) = false ∧
     (SFleb (to_numeric parse_float (evalue r)) EVALUE_THRESHOLD = true →
        subject_ID r ∈ list2_of (coerce parse_float <$> raw))) ∧
  (evalue r = Text s →
     SFleb (to_numeric parse_float (evalue r)) EVALUE_THRESHOLD = false ∧
     (SFleb IDENTITY_THRESHOLD (to_numeric parse_float (pct_identity r)) = true →
        subject_ID r ∈ list1_of (coerce parse_float <$> raw))).
Proof.
  intros Hr Hparse.
  assert (coerce parse_float r ∈ coerce parse_float <$> raw) as Hin.
  { apply list_elem_of_fmap. eauto. }
  split; intros Htext.
  - split; [rewrite Htext; unfold to_numeric; by rewrite Hparse|].
    intros Hpass. apply list2_of_elem_of. eauto.
  - split; [rewrite Htext; unfold to_numeric; by rewrite Hparse|].
    intros Hpass. apply list1_of_elem_of. eauto.
Qed.

End Coercion.

Lemma coerce_missing_one_column_witness :
  let r := mkRecord "Q1" "S1" (Text "n/a") (Text "") (Text "") (Text "")
             (Text "") (Text "") (Text "") (Text "") (Number f1e_9) (Text "") in
  list1_of (coerce (λ _, None) <$> [r]) = [] ∧
  "S1" ∈ list2_of (coerce (λ _, None) <$> [r]).
Proof.
  intros r.
  destruct (coerce_missing_one_column (λ _, None) [r] r "n/a") as [Hid _];
    [by left | reflexivity |].
  destruct Hid as [_ Hb]; [reflexivity|].
  split; [reflexivity | by apply Hb].
Defined.

Lemma rstrip_nl_cons c s :
  Py.rstrip_nl (String c s)
  = if decide (Py.rstrip_nl s = "" ∧ c = Py.LF) then ""
    else String c (Py.rstrip_nl s).
Proof.
  cbn [Py.rstrip_nl]. destruct (Py.rstrip_nl s) as [|c' r].
  - destruct (decide (c = Py.LF)) as [->|Hc].
    + by rewrite decide_True.
    + rewrite decide_False; [done|tauto].
  - rewrite decide_False; [done|]. by intros [? _].
Qed.

(** X22. [rstrip("\n")] takes line feeds off the end of the line and
    nothing else: the line is what is kept followed by line feeds only, and
    what is kept does not end with a line feed. *)
Theorem rstrip_nl_trailing (line : string) :
  (∃ k, line = Py.rstrip_nl line +:+ line_feeds k) ∧
  (∀ t, Py.rstrip_nl line ≠ t +:+ Py.nl).
Proof.
  induction line as [|c s [[k Hk] Hend]].
  - split; [by exists 0|]. by intros [|??].
  - rewrite rstrip_nl_cons. case_decide as Hcase.
    + destruct Hcase as [Hs ->]. split; [|by intros [|??]].
      exists (S k). rewrite Hs in Hk. rewrite Hk at 1.
      unfold line_feeds. by rewrite replicate_S, join_cons.
    + split.
      * exists k. by rewrite str_app_cons, <- Hk.
      * intros [|c' t] Heq.
        -- injection Heq as -> Hs. tauto.
        -- rewrite str_app_cons in Heq. injection Heq as _ Heq.
           by apply Hend in Heq.
Qed.
